(** * US Stablecoin Regulation Map: the logic of [App.jsx]

    A shallow embedding of the non-presentational functions of the page
    ([normalizeStatus], [shiftHexColor], [getSourceLabel], [formatDate], the
    region resolver of the map with its fills and handlers, the
    [selectedState] memo and the status of the chip), of [statusKey] of the
    first version and of [normalizeStatus] and [trackerStatusStyle] of the
    version with the issuance tracker, together with the part of the
    JavaScript runtime they exercise, followed by the properties of the
    specification and of the code stated over that embedding.

    Strings are Rocq strings read as sequences of UTF-16 code units, one
    character per code unit; the embedding therefore covers the strings whose
    code units are below 256, which includes every literal of the source. *)

From Stdlib Require Import ZArith Lia Ascii String List Bool.
From stdpp Require Import base option list gmap strings sorting.

Local Open Scope Z_scope.

(** ** The JavaScript runtime used by the page *)

Module JS.

(** The result of reading a property of an object literal whose own
    properties hold values of type [A]: nothing, an own value, or one of the
    built-ins every object literal inherits from [Object.prototype]. *)
Inductive value (A : Type) : Type :=
| undefined : value A
| val (a : A) : value A
| builtin (k : string) : value A.
Global Arguments undefined {A}.
Global Arguments val {A} a.
Global Arguments builtin {A} k.

(** [ToBoolean]. *)
Class Truthy (A : Type) := truthy : A -> bool.
Global Hint Mode Truthy ! : typeclass_instances.

(** A string is falsy exactly when it is empty. *)
Global Instance string_truthy : Truthy string :=
  fun s => negb (String.eqb s "").

(** [undefined] is falsy; functions and objects are truthy. *)
Global Instance value_truthy {A} `{Truthy A} : Truthy (value A) :=
  fun v => match v with
           | undefined => false
           | val a => truthy a
           | builtin _ => true
           end.

(** An optional argument: [None] is [undefined]. *)
Global Instance option_truthy {A} `{Truthy A} : Truthy (option A) :=
  fun o => match o with
           | None => false
           | Some a => truthy a
           end.

Definition ofOption {A} (o : option A) : value A :=
  match o with
  | None => undefined
  | Some a => val a
  end.

(** [a || b]. *)
Definition or_else {A} `{Truthy A} (a b : A) : A :=
  if truthy a then a else b.

(** [ToPropertyKey] of a string or [undefined]. *)
Definition toKey (k : option string) : string :=
  match k with
  | None => "undefined"
  | Some s => s
  end.

(** The property names of [Object.prototype] in a web browser: the
    functions of the language core, the [__proto__] accessor and the four
    legacy accessor helpers. Each of them reads as a function or as an
    object, never as [undefined]. *)
Definition ObjectPrototype : list string :=
  [ "constructor"; "hasOwnProperty"; "isPrototypeOf"; "propertyIsEnumerable";
    "toLocaleString"; "toString"; "valueOf"; "__proto__";
    "__defineGetter__"; "__defineSetter__"; "__lookupGetter__";
    "__lookupSetter__" ].

Definition inherited (k : string) : bool :=
  bool_decide (k ∈ ObjectPrototype).

(** [o[k]] on an object literal (or an object parsed from JSON): the own
    property when there is one, else what the prototype chain gives. *)
Definition get {A} (o : gmap string A) (k : string) : value A :=
  match o !! k with
  | Some a => val a
  | None => if inherited k then builtin k else undefined
  end.

(** [Object.hasOwn(o, k)]. *)
Definition hasOwn {A} (o : gmap string A) (k : string) : bool :=
  bool_decide (is_Some (o !! k)).

(** *** Strings *)

Definition strlen (s : string) : Z := Z.of_nat (String.length s).

(** [s.replace(pattern, replacement)] with a string pattern: the first
    occurrence only. The replacements of the page hold no [$]. *)
Fixpoint replace (pattern replacement s : string) : string :=
  if String.prefix pattern s
  then replacement +:+
       String.substring (String.length pattern)
                        (String.length s - String.length pattern) s
  else match s with
       | EmptyString => EmptyString
       | String c rest => String c (replace pattern replacement rest)
       end.

(** [count] code units of [fill] repeated, starting from [rest]. *)
Fixpoint repeatTo (count : nat) (rest fill : string) : string :=
  match count with
  | O => EmptyString
  | S n =>
      match rest with
      | String c r => String c (repeatTo n r fill)
      | EmptyString =>
          match fill with
          | String c r => String c (repeatTo n r fill)
          | EmptyString => EmptyString
          end
      end
  end.

(** [s.padStart(targetLength, padString)]. *)
Definition padStart (targetLength : Z) (padString s : string) : string :=
  if (targetLength <=? strlen s) || negb (truthy padString) then s
  else repeatTo (Z.to_nat (targetLength - strlen s)) padString padString +:+ s.

(** *** Numbers and their numerals *)

Definition code (c : ascii) : Z := Z.of_N (N_of_ascii c).

(** The value of a digit or letter as a numeral digit, in any radix. *)
Definition digitValue (c : ascii) : option Z :=
  let n := code c in
  if (48 <=? n) && (n <=? 57) then Some (n - 48)
  else if (97 <=? n) && (n <=? 122) then Some (n - 87)
  else if (65 <=? n) && (n <=? 90) then Some (n - 55)
  else None.

Definition radixDigit (R : Z) (c : ascii) : option Z :=
  match digitValue c with
  | Some d => if d <? R then Some d else None
  | None => None
  end.

(** White space and line terminators among the code units below 256. *)
Definition isWhiteSpace (c : ascii) : bool :=
  let n := code c in
  ((9 <=? n) && (n <=? 13)) || (n =? 32) || (n =? 160).

Fixpoint trimStart (s : string) : string :=
  match s with
  | String c rest => if isWhiteSpace c then trimStart rest else s
  | EmptyString => EmptyString
  end.

(** The value of the longest prefix of radix-[R] digits; [None] when that
    prefix is empty. *)
Fixpoint digitsValue (R : Z) (acc : option Z) (s : string) : option Z :=
  match s with
  | String c rest =>
      match radixDigit R c with
      | Some d => digitsValue R (Some (R * default 0 acc + d)) rest
      | None => acc
      end
  | EmptyString => acc
  end.

Definition stripSign (s : string) : Z * string :=
  match s with
  | String c rest =>
      if Ascii.eqb c "-" then (-1, rest)
      else if Ascii.eqb c "+" then (1, rest)
      else (1, s)
  | EmptyString => (1, s)
  end.

Definition stripHexPrefix (s : string) : option string :=
  match s with
  | String c0 (String c1 rest) =>
      if Ascii.eqb c0 "0" && (Ascii.eqb c1 "x" || Ascii.eqb c1 "X")
      then Some rest else None
  | _ => None
  end.

(** [Number.parseInt(string, radix)] for an integer radix; [None] is [NaN].
    Numerals of up to thirteen hexadecimal digits are read exactly; a
    negative zero is read as zero. *)
Definition parseInt (s : string) (radix : Z) : option Z :=
  let '(sign, body) := stripSign (trimStart s) in
  let R := ((radix + 2 ^ 31) `mod` 2 ^ 32) - 2 ^ 31 in
  if negb (R =? 0) && ((R <? 2) || (36 <? R)) then None
  else
    let '(R, body) :=
      match stripHexPrefix body with
      | Some rest => if (R =? 0) || (R =? 16) then (16, rest) else (R, body)
      | None => (if R =? 0 then 10 else R, body)
      end in
    (λ n, sign * n) <$> digitsValue R None body.

Definition digitChars : string := "0123456789abcdefghijklmnopqrstuvwxyz".

Definition digitChar (d : Z) : ascii :=
  default "0"%char (String.get (Z.to_nat d) digitChars).

(** The digits of a positive integer, most significant first, in front of
    [acc]. *)
Fixpoint digitsOf (fuel : nat) (R n : Z) (acc : string) : string :=
  match fuel with
  | O => acc
  | S fuel =>
      let acc := String (digitChar (n `mod` R)) acc in
      if n `div` R =? 0 then acc else digitsOf fuel R (n `div` R) acc
  end.

(** [n.toString(radix)] for an integer [n] and a radix from 2 to 36. *)
Definition toString (n radix : Z) : string :=
  let fuel := S (Z.to_nat (Z.log2 (Z.abs n))) in
  if n <? 0 then String "-" (digitsOf fuel radix (- n) EmptyString)
  else digitsOf fuel radix n EmptyString.

(** *** 32-bit integer operators *)

Definition ToInt32 (x : Z) : Z := ((x + 2 ^ 31) `mod` 2 ^ 32) - 2 ^ 31.

(** [x >> k], [x << k], [x & y], [x | y]. *)
Definition sar (x k : Z) : Z := Z.shiftr (ToInt32 x) (k `mod` 32).
Definition shl (x k : Z) : Z := ToInt32 (Z.shiftl (ToInt32 x) (k `mod` 32)).
Definition band (x y : Z) : Z := Z.land (ToInt32 x) (ToInt32 y).
Definition bor (x y : Z) : Z := Z.lor (ToInt32 x) (ToInt32 y).

(** *** Exceptions *)

Inductive completion (A : Type) : Type :=
| Normal (a : A)
| Throw (error : string).
Global Arguments Normal {A} a.
Global Arguments Throw {A} error.

Definition bind {A B} (c : completion A) (k : A -> completion B) : completion B :=
  match c with
  | Normal a => k a
  | Throw e => Throw e
  end.

(** [try { body } catch { handler }]. *)
Definition tryCatch {A} (body : completion A) (handler : completion A) : completion A :=
  match body with
  | Normal a => Normal a
  | Throw _ => handler
  end.

(** *** What the host provides

    [Date] objects, the long en-US date format and the URL parser belong to
    the browser, not to the page; the page is written against them. *)

Record URLRecord := { hostname : string; pathname : string }.

Record Host := {
  (** the time values that are not [NaN] *)
  Time : Type;
  (** [new Date(string).getTime()], [None] when it is [NaN]; the
      constructor itself never throws *)
  dateTime : string -> option Time;
  (** the text that [Intl.DateTimeFormat("en-US", { year: "numeric",
      month: "long", day: "numeric" })] gives a valid date *)
  formatLong : Time -> string;
  (** [new URL(string)], which throws a [TypeError] on a string that is
      not a URL *)
  newURL : string -> completion URLRecord
}.

(** [Intl.DateTimeFormat.prototype.format(date)] throws a [RangeError] on
    an invalid date. *)
Definition format (host : Host) (value : option (Time host)) : completion string :=
  match value with
  | None => Throw "RangeError"
  | Some time => Normal (formatLong host time)
  end.

(** [Number.isNaN(value.getTime())]. *)
Definition isNaN {A} (time : option A) : bool :=
  match time with
  | None => true
  | Some _ => false
  end.

(** *** Letter case and search *)

(** The lower-case form of a code unit below 256: the letters [A-Z] and the
    capital letters of Latin-1, which are 192 to 222 without the
    multiplication sign. *)
Definition lowerCode (n : Z) : Z :=
  if ((65 <=? n) && (n <=? 90))
     || ((192 <=? n) && (n <=? 222) && negb (n =? 215))
  then n + 32 else n.

Definition toLowerChar (c : ascii) : ascii :=
  ascii_of_N (Z.to_N (lowerCode (code c))).

(** [s.toLowerCase()]. *)
Fixpoint toLowerCase (s : string) : string :=
  match s with
  | EmptyString => EmptyString
  | String c rest => String (toLowerChar c) (toLowerCase rest)
  end.

(** [s.includes(searchString)]. *)
Fixpoint includes (s searchString : string) : bool :=
  String.prefix searchString s
  || match s with
     | EmptyString => false
     | String _ rest => includes rest searchString
     end.

End JS.

Import JS.

(** ** Status metadata and overrides *)

Record StatusMeta := {
  label : string;
  description : string;
  tooltipClass : string;
  tooltipPositionClass : string;
  color : string;
  chipBg : string;
  chipBorder : string;
  chipText : string
}.

Definition STATUS_META : gmap string StatusMeta :=
  <["clear_friendly" := {|
      label := "Clear + Friendly";
      description := "clear rules, builder-friendly";
      tooltipClass := "max-w-max whitespace-nowrap";
      tooltipPositionClass := "left-0 translate-x-0";
      color := "#15803d";
      chipBg := "#14532d";
      chipBorder := "#22c55e";
      chipText := "#bbf7d0" |}]>
  (<["clear_restrictive" := {|
      label := "Clear + Restrictive";
      description := "clear rules, higher compliance bar";
      tooltipClass := "max-w-max whitespace-nowrap";
      tooltipPositionClass := "left-1/2 -translate-x-1/2";
      color := "#1e3a8a";
      chipBg := "#1e3a8a";
      chipBorder := "#60a5fa";
      chipText := "#bfdbfe" |}]>
  (<["pending" := {|
      label := "Pending";
      description :=
        "framework is in motion: active bills, pilots, or implementation steps";
      tooltipClass := "w-72 whitespace-normal leading-snug";
      tooltipPositionClass := "left-1/2 -translate-x-1/2";
      color := "#a16207";
      chipBg := "#78350f";
      chipBorder := "#f59e0b";
      chipText := "#fde68a" |}]>
  (<["federal_default" := {|
      label := "Federal Default";
      description :=
        "no state-specific stablecoin framework; federal baseline plus money transmission rules";
      tooltipClass := "w-72 whitespace-normal leading-snug";
      tooltipPositionClass := "right-0 left-auto translate-x-0";
      color := "#4b5563";
      chipBg := "#1f2937";
      chipBorder := "#9ca3af";
      chipText := "#e5e7eb" |}]> ∅))).

Definition STATUS_ORDER : list string :=
  ["clear_friendly"; "clear_restrictive"; "pending"; "federal_default"].

Definition STATUS_OVERRIDES_BY_STATE : gmap string string :=
  <["FL" := "pending"]> (<["HI" := "pending"]> (<["AZ" := "pending"]> ∅)).

Definition legacyMap : gmap string string :=
  <["friendly" := "clear_friendly"]>
  (<["restrictive" := "clear_restrictive"]>
  (<["none" := "federal_default"]>
  (<["unclear" := "pending"]> ∅))).

(** [normalizeStatus(input, stateAbbr)]; either argument may be [undefined]. *)
Definition normalizeStatus (input stateAbbr : option string) : value string :=
  if truthy stateAbbr && truthy (get STATUS_OVERRIDES_BY_STATE (toKey stateAbbr))
  then get STATUS_OVERRIDES_BY_STATE (toKey stateAbbr)
  else if negb (truthy input) then val "federal_default"
  else if hasOwn STATUS_META (toKey input) then ofOption input
  else or_else (get legacyMap (toKey input)) (val "federal_default").

(** ** Formatters *)

(** [formatDate(isoDate)]; the argument may be [undefined]. *)
Definition formatDate (host : Host) (isoDate : option string) : completion string :=
  if negb (truthy isoDate) then Normal "N/A"
  else
    let value := dateTime host (toKey isoDate +:+ "T00:00:00") in
    if isNaN value then Normal (toKey isoDate)
    else format host value.

Definition clamp (value : Z) : Z := Z.min 255 (Z.max 0 value).

(** [shiftHexColor(hex, amount)] for an integer [amount]. *)
Definition shiftHexColor (hex : string) (amount : Z) : string :=
  let normalized := replace "#" "" hex in
  if negb (strlen normalized =? 6) then hex
  else
    match parseInt normalized 16 with
    | None => hex
    | Some num =>
        let r := clamp (sar num 16 + amount) in
        let g := clamp (band (sar num 8) 255 + amount) in
        let b := clamp (band num 255 + amount) in
        "#" +:+ padStart 6 "0" (toString (bor (bor (shl r 16) (shl g 8)) b) 16)
    end.

(** [getSourceLabel(source)], with the exception of [new URL] caught. *)
Definition getSourceLabel (host : Host) (source : string) : completion string :=
  tryCatch
    (bind (newURL host source) (λ parsed,
       Normal (hostname parsed +:+ pathname parsed)))
    (Normal source).

(** ** Region resolver

    The two tables of [data/stateMappings] are parameters. A feature of the
    map carries an identifier, a number or a string, and a name. *)

Inductive featureId :=
| IdNumber (n : Z)
| IdString (s : string).

Record Geography := {
  geo_id : featureId;
  geo_name : option string
}.

(** [String(geo.id)]. A number identifier is an integer between -2^53 and
    2^53, where [String] writes the decimal numeral; larger numbers, which
    [String] rounds or writes with an exponent, are not identifiers of this
    embedding, and every property below keeps to that range. *)
Definition String_ (id : featureId) : string :=
  match id with
  | IdNumber n => toString n 10
  | IdString s => s
  end.


Definition fips (geo : Geography) : string :=
  padStart 2 "0" (String_ (geo_id geo)).

Definition abbr (FIPS_TO_ABBR STATE_NAME_TO_ABBR : gmap string string)
    (geo : Geography) : value string :=
  or_else (get FIPS_TO_ABBR (fips geo))
          (get STATE_NAME_TO_ABBR (toKey (geo_name geo))).

(** ** Selection state holder *)

Record StateRecord := {
  name : value string;
  status : option string;
  summary : string;
  keyLaws : list string;
  recentDevelopments : string;
  sources : list string;
  lastUpdated : option string
}.

(** Objects are truthy. *)
Global Instance StateRecord_truthy : Truthy StateRecord := λ _, true.

(** [xs.filter(Boolean)]. *)
Definition filterBoolean (xs : list (option string)) : list string :=
  omap (λ x, match x with
             | Some s => if truthy s then Some s else None
             | None => None
             end) xs.

(** [Object.values(o)], in some order; the page sorts what it takes from
    them. *)
Definition values {A} (o : gmap string A) : list A := (map_to_list o).*2.

(** [xs[i]]. *)
Definition at_ {A} (xs : list A) (i : Z) : option A :=
  if i <? 0 then None else xs !! Z.to_nat i.

(** [`${v}`] for a string or a built-in of [Object.prototype]; a native
    function prints as the common engines print it. *)
Definition display (v : value string) : string :=
  match v with
  | undefined => "undefined"
  | val s => s
  | builtin k =>
      if String.eqb k "__proto__" then "[object Object]"
      else if String.eqb k "constructor" then "function Object() { [native code] }"
      else "function " +:+ k +:+ "() { [native code] }"
  end.

Section App.

(** [statesData], which is [regulationData.states || regulationData], and
    the table of state names of [data/stateMappings]. *)
Variable statesData : gmap string StateRecord.
Variable ALL_STATES : gmap string string.

(** [sort()] orders strings by their code units, which [String.le] does. *)
Definition allLastUpdated : list string :=
  merge_sort String.le (filterBoolean (lastUpdated <$> values statesData)).

(** An index out of range reads [undefined], which is falsy as the empty
    string is. *)
Definition latestDataDate : string :=
  or_else (default "" (at_ allLastUpdated (Z.of_nat (length allLastUpdated) - 1)))
          "2026-02-11".

Definition selectedState (selectedAbbr : string) : value StateRecord :=
  let fromData := get statesData selectedAbbr in
  if truthy fromData then fromData
  else
    let name := or_else (get ALL_STATES selectedAbbr) (val "Unknown") in
    val {|
      name := name;
      status := Some "federal_default";
      summary :=
        (display name +:+ " does not currently have a clearly identified state-specific stablecoin framework in this dataset. ") +:+
        "As a baseline, activity may still be governed by federal stablecoin rules plus general money transmission, banking, and consumer protection law.";
      keyLaws := ["No dedicated state-level stablecoin framework identified in this dataset."];
      recentDevelopments :=
        "No major state-specific stablecoin development is currently listed in this starter dataset.";
      sources := [];
      lastUpdated := Some latestDataDate
    |}.

End App.

(** ** The map regions and the status chip of the panel *)

(** The key a resolved abbreviation or a status is used as. *)
Definition keyOf (v : value string) : option string :=
  match v with
  | undefined => None
  | val s => Some s
  | builtin _ => Some (display v)
  end.

(** [v?.status], and [v.status] on what is neither [null] nor [undefined]:
    a built-in has no such property. *)
Definition statusOf (v : value StateRecord) : option string :=
  match v with
  | val rec => status rec
  | _ => None
  end.

(** [abbr ? statesData[abbr] : null]; [null] and [undefined] are both read
    through [?.] only. *)
Definition currentState (statesData : gmap string StateRecord)
    (abbr : value string) : value StateRecord :=
  if truthy abbr then get statesData (toKey (keyOf abbr)) else undefined.

Definition currentStatus (statesData : gmap string StateRecord)
    (abbr : value string) : value string :=
  normalizeStatus (statusOf (currentState statesData abbr)) (keyOf abbr).

(** [abbr === selectedAbbr], the selection being a string. *)
Definition isSelected (abbr : value string) (selectedAbbr : string) : bool :=
  match abbr with
  | val s => String.eqb s selectedAbbr
  | _ => false
  end.

(** [STATUS_META[currentStatus].color]; reading [color] off [undefined], or
    shifting the [undefined] colour of a built-in, throws a [TypeError]. *)
Definition baseFill (currentStatus : value string) : completion string :=
  match get STATUS_META (toKey (keyOf currentStatus)) with
  | val meta => Normal (color meta)
  | _ => Throw "TypeError"
  end.

(** The three fills of the [style] of a region. *)
Record RegionFills := {
  fill_default : string;
  fill_hover : string;
  fill_pressed : string
}.

Definition regionFills (statesData : gmap string StateRecord)
    (abbr : value string) (selectedAbbr : string) : completion RegionFills :=
  bind (baseFill (currentStatus statesData abbr)) (λ baseFill,
    let selectedFill := shiftHexColor baseFill 26 in
    let hoverFill :=
      if isSelected abbr selectedAbbr then shiftHexColor baseFill 34
      else shiftHexColor baseFill 14 in
    let pressedFill := shiftHexColor baseFill 38 in
    Normal {|
      fill_default := if isSelected abbr selectedAbbr then selectedFill else baseFill;
      fill_hover := hoverFill;
      fill_pressed := pressedFill
    |}).

(** The two handlers of a region, as functions from the selection to the
    selection: [onClick] sets it when the region has an abbreviation,
    [onKeyDown] when it has one and the key is Enter or the space bar. *)
Definition onClick (abbr selectedAbbr : value string) : value string :=
  if truthy abbr then abbr else selectedAbbr.

Definition onKeyDown (abbr : value string) (key : string)
    (selectedAbbr : value string) : value string :=
  if negb (truthy abbr) then selectedAbbr
  else if String.eqb key "Enter" || String.eqb key " " then abbr
  else selectedAbbr.



(** [normalizeStatus(selectedState.status, selectedAbbr)]. *)
Definition selectedStatus (statesData : gmap string StateRecord)
    (ALL_STATES : gmap string string) (selectedAbbr : string) : value string :=
  normalizeStatus (statusOf (selectedState statesData ALL_STATES selectedAbbr))
                  (Some selectedAbbr).

(** ** The first version of the page, [src/App.jsx] *)

Module Legacy.

Record StatusMeta := {
  label : string;
  color : string;
  chipBg : string;
  chipBorder : string;
  chipText : string
}.

Definition STATUS_META : gmap string StatusMeta :=
  <["friendly" := {|
      label := "Friendly / Clear Framework";
      color := "#166534";
      chipBg := "#14532d";
      chipBorder := "#22c55e";
      chipText := "#bbf7d0" |}]>
  (<["unclear" := {|
      label := "Unclear / Pending Legislation";
      color := "#a16207";
      chipBg := "#78350f";
      chipBorder := "#f59e0b";
      chipText := "#fde68a" |}]>
  (<["restrictive" := {|
      label := "Restrictive";
      color := "#991b1b";
      chipBg := "#7f1d1d";
      chipBorder := "#ef4444";
      chipText := "#fecaca" |}]>
  (<["none" := {|
      label := "No Specific Framework";
      color := "#374151";
      chipBg := "#1f2937";
      chipBorder := "#9ca3af";
      chipText := "#e5e7eb" |}]> ∅))).

(** [statusKey(input)]; the argument may be [undefined]. *)
Definition statusKey (input : option string) : string :=
  if negb (truthy input) then "none"
  else if hasOwn STATUS_META (toKey input) then toKey input
  else "none".

End Legacy.

(** ** The version with the issuance tracker *)

Module Tracker.

Record StatusMeta := {
  label : string;
  mobileLabel : string;
  description : string;
  tooltipClass : string;
  tooltipPositionClass : string;
  color : string;
  chipBg : string;
  chipBorder : string;
  chipText : string
}.

Definition STATUS_META : gmap string StatusMeta :=
  <["clear_friendly" := {|
      label := "Clear + Favorable";
      mobileLabel := "Clear + Favorable";
      description :=
        "has stablecoin-relevant frameworks, charters, or explicit exemptions that support operations";
      tooltipClass :=
        "w-[min(17rem,calc(100vw-2.5rem))] whitespace-normal leading-snug break-words sm:w-80";
      tooltipPositionClass := "left-0 translate-x-0";
      color := "#15803d";
      chipBg := "#14532d";
      chipBorder := "#22c55e";
      chipText := "#bbf7d0" |}]>
  (<["clear_restrictive" := {|
      label := "Clear + Strict";
      mobileLabel := "Clear + Strict";
      description := "clear framework with higher licensing burden and compliance cost";
      tooltipClass :=
        "w-[min(17rem,calc(100vw-2.5rem))] whitespace-normal leading-snug break-words sm:w-80";
      tooltipPositionClass := "left-1/2 -translate-x-1/2";
      color := "#1e3a8a";
      chipBg := "#1e3a8a";
      chipBorder := "#60a5fa";
      chipText := "#bfdbfe" |}]>
  (<["pending" := {|
      label := "Pending";
      mobileLabel := "Pending";
      description :=
        "active stablecoin-related bills, pilots, or money-transmission modernization";
      tooltipClass :=
        "w-[min(17rem,calc(100vw-2.5rem))] whitespace-normal leading-snug break-words sm:w-80";
      tooltipPositionClass := "left-1/2 -translate-x-1/2";
      color := "#a16207";
      chipBg := "#78350f";
      chipBorder := "#f59e0b";
      chipText := "#fde68a" |}]>
  (<["federal_default" := {|
      label := "Federal Default";
      mobileLabel := "Federal Default";
      description :=
        "no meaningful state stablecoin framework identified; federal baseline plus money-transmission rules";
      tooltipClass :=
        "w-[min(17rem,calc(100vw-2.5rem))] whitespace-normal leading-snug break-words sm:w-80";
      tooltipPositionClass :=
        "left-1/2 -translate-x-1/2 sm:right-0 sm:left-auto sm:translate-x-0";
      color := "#4b5563";
      chipBg := "#1f2937";
      chipBorder := "#9ca3af";
      chipText := "#e5e7eb" |}]> ∅))).

(** [normalizeStatus(input)] of this version, which has no overrides. *)
Definition normalizeStatus (input : option string) : value string :=
  if negb (truthy input) then val "federal_default"
  else if hasOwn STATUS_META (toKey input) then ofOption input
  else or_else (get legacyMap (toKey input)) (val "federal_default").

Record TrackerStyle := {
  bg : string;
  border : string;
  text : string
}.

(** [trackerStatusStyle(status)]; the argument may be [undefined].
    [String(v)] of a string is the string itself. *)
Definition trackerStatusStyle (status : option string) : TrackerStyle :=
  let normalized := toLowerCase (toKey (or_else status (Some ""))) in
  if includes normalized "launch" || includes normalized "live" then
    {| bg := "#14532d"; border := "#22c55e"; text := "#bbf7d0" |}
  else if includes normalized "pilot" then
    {| bg := "#78350f"; border := "#f59e0b"; text := "#fde68a" |}
  else if includes normalized "pending"
          || includes normalized "introduc"
          || includes normalized "proposal"
          || includes normalized "committee" then
    {| bg := "#78350f"; border := "#f59e0b"; text := "#fde68a" |}
  else
    {| bg := "#1f2937"; border := "#9ca3af"; text := "#e5e7eb" |}.

End Tracker.

(** ** Vocabulary of the specification *)

(** The canonical statuses are the keys of [STATUS_META]. *)
Definition canonical (s : string) : Prop := s ∈ STATUS_ORDER.

(** A state abbreviation for which the override table has nothing to say:
    none at all, or a string that is neither a key of the table nor a
    property name of [Object.prototype]. *)
Definition noOverride (stateAbbr : option string) : Prop :=
  match stateAbbr with
  | None => True
  | Some a => (a ∉ ["FL"; "HI"; "AZ"]) /\ inherited a = false
  end.

(** A numeral of exactly [k] radix-[R] digits, most significant first. *)
Fixpoint fixedDigits (R : Z) (k : nat) (n : Z) : string :=
  match k with
  | O => EmptyString
  | S k => fixedDigits R k (n `div` R) +:+ String (digitChar (n `mod` R)) EmptyString
  end.

(** [k] zeros. *)
Definition zeros (k : nat) : string := repeatTo k "0" "0".

(** Every character of [s] is a radix-[R] digit. *)
Fixpoint allDigits (R : Z) (s : string) : bool :=
  match s with
  | EmptyString => true
  | String c rest => bool_decide (is_Some (radixDigit R c)) && allDigits R rest
  end.

(** Every character of [s] is one of [0-9a-f]. *)
Fixpoint lowerHex (s : string) : bool :=
  match s with
  | EmptyString => true
  | String c rest =>
      bool_decide (c ∈ list_ascii_of_string "0123456789abcdef") && lowerHex rest
  end.

(** The byte two hexadecimal digits denote. *)
Definition hexByte (hi lo : ascii) : option Z :=
  h ← radixDigit 16 hi; l ← radixDigit 16 lo; Some (16 * h + l).

(** The red, green and blue components of a colour of six hexadecimal
    digits. *)
Definition channels (s : string) : option (Z * Z * Z) :=
  match s with
  | String r1 (String r0 (String g1 (String g0 (String b1 (String b0 EmptyString))))) =>
      r ← hexByte r1 r0; g ← hexByte g1 g0; b ← hexByte b1 b0; Some (r, g, b)
  | _ => None
  end.

(** A component moved by [amount] and kept within a byte. *)
Definition saturate (v : Z) : Z :=
  if v <? 0 then 0 else if 255 <? v then 255 else v.

(** The colour string of three bytes. *)
Definition recompose (r g b : Z) : string :=
  "#" +:+ fixedDigits 16 2 r +:+ fixedDigits 16 2 g +:+ fixedDigits 16 2 b.

(** An identifier of a feature that is a number: a natural number below
    2^53, which a JavaScript number holds exactly and [String] writes digit
    by digit, or a string of decimal digits. *)
Definition numericId (id : featureId) : Prop :=
  match id with
  | IdNumber n => 0 <= n <= 9007199254740991
  | IdString s => allDigits 10 s = true
  end.

(** *** Calendar days and their two renderings *)

Definition leapYear (y : Z) : bool :=
  (y `mod` 4 =? 0) && (negb (y `mod` 100 =? 0) || (y `mod` 400 =? 0)).

Definition daysInMonth (y m : Z) : Z :=
  if m =? 2 then (if leapYear y then 29 else 28)
  else if (m =? 4) || (m =? 6) || (m =? 9) || (m =? 11) then 30
  else 31.

(** A day of the calendar in a year of four digits. *)
Definition validDate (y m d : Z) : Prop :=
  1000 <= y <= 9999 /\ 1 <= m <= 12 /\ 1 <= d <= daysInMonth y m.

(** The ISO form [YYYY-MM-DD] of a day. *)
Definition isoDate (y m d : Z) : string :=
  fixedDigits 10 4 y +:+ "-" +:+ fixedDigits 10 2 m +:+ "-" +:+ fixedDigits 10 2 d.

Definition monthNames : list string :=
  [ "January"; "February"; "March"; "April"; "May"; "June"; "July"; "August";
    "September"; "October"; "November"; "December" ].

Definition monthName (m : Z) : string :=
  default "" (monthNames !! Z.to_nat (m - 1)).

(** The long en-US form of a day: full month name, day, comma, year. *)
Definition longDate (y m d : Z) : string :=
  monthName m +:+ " " +:+ toString d 10 +:+ ", " +:+ toString y 10.

(** What the language standard and the en-US locale data say of the host's
    two date functions on the days of [validDate]: the local midnight of an
    ISO day is a valid date, and its long form names that same day. *)
Definition datesAsSpecified (host : Host) : Prop :=
  forall y m d, validDate y m d ->
    exists time,
      dateTime host (isoDate y m d +:+ "T00:00:00") = Some time
      /\ formatLong host time = longDate y m d.

(** *** A reference host

    A small host to run the page against: its dates are calendar days, read
    from strings of the form [YYYY-MM-DDT00:00:00] only, and its URLs are
    those of the form [https://host/path]. *)

Definition decimal (digits : list ascii) : option Z :=
  foldl (λ acc c, a ← acc; d ← radixDigit 10 c; Some (10 * a + d)) (Some 0) digits.

Definition refDateTime (s : string) : option (Z * Z * Z) :=
  match s with
  | String y3 (String y2 (String y1 (String y0 (String s1
      (String m1 (String m0 (String s2 (String d1 (String d0 rest))))))))) =>
      if Ascii.eqb s1 "-" && Ascii.eqb s2 "-" && String.eqb rest "T00:00:00"
      then
        y ← decimal [y3; y2; y1; y0];
        m ← decimal [m1; m0];
        d ← decimal [d1; d0];
        if (1 <=? m) && (m <=? 12) && (1 <=? d) && (d <=? daysInMonth y m)
        then Some (y, m, d) else None
      else None
  | _ => None
  end.

Definition refFormatLong (day : Z * Z * Z) : string :=
  let '(y, m, d) := day in longDate y m d.

(** The part of [s] before the first [c], and the part from it on. *)
Fixpoint splitAt (c : ascii) (s : string) : string * string :=
  match s with
  | EmptyString => (EmptyString, EmptyString)
  | String c' rest =>
      if Ascii.eqb c' c then (EmptyString, s)
      else let '(before, from) := splitAt c rest in (String c' before, from)
  end.

Definition refNewURL (s : string) : completion URLRecord :=
  if String.prefix "https://" s then
    let '(host, path) := splitAt "/" (String.substring 8 (String.length s - 8) s) in
    if negb (truthy host) then Throw "TypeError"
    else Normal {| hostname := host;
                   pathname := if truthy path then path else "/" |}
  else Throw "TypeError".

Definition refHost : Host := {|
  Time := Z * Z * Z;
  dateTime := refDateTime;
  formatLong := refFormatLong;
  newURL := refNewURL
|}.

(** The display name of an abbreviation: its non-empty entry in the table
    of state names, or "Unknown". *)
Definition resolvedName (ALL_STATES : gmap string string) (a : string) : string :=
  match ALL_STATES !! a with
  | Some n => if String.eqb n "" then "Unknown" else n
  | None => "Unknown"
  end.

(** [d] is the non-empty [lastUpdated] of a record of the dataset. *)
Definition updateDate (statesData : gmap string StateRecord) (d : string) : Prop :=
  d <> "" /\ exists k rec, statesData !! k = Some rec /\ lastUpdated rec = Some d.

(** A key that is absent or names no property of [Object.prototype]. *)
Definition plain (k : option string) : Prop :=
  match k with
  | None => True
  | Some s => inherited s = false
  end.

(** The red, green and blue components of a colour string, its first "#"
    left out. *)
Definition channelsOf (colour : string) : option (Z * Z * Z) :=
  channels (replace "#" "" colour).

(** Two amounts that move a colour in the same direction. *)
Definition sameSign (a b : Z) : Prop :=
  (0 <= a /\ 0 <= b) \/ (a <= 0 /\ b <= 0).

(** The first colour is, component by component, no brighter than the
    second. *)
Definition noBrighter (c1 c2 : string) : Prop :=
  exists r1 g1 b1 r2 g2 b2,
    channelsOf c1 = Some (r1, g1, b1) /\ channelsOf c2 = Some (r2, g2, b2)
    /\ r1 <= r2 /\ g1 <= g2 /\ b1 <= b2.

(** "#" and six digits of [0-9a-f]. *)
Definition colourString (s : string) : Prop :=
  exists body, s = String "#" body /\ String.length body = 6%nat /\ lowerHex body = true.

(** The three styles of the tracker: live, in preparation, neutral. *)
Definition styleLive : Tracker.TrackerStyle :=
  {| Tracker.bg := "#14532d"; Tracker.border := "#22c55e"; Tracker.text := "#bbf7d0" |}.

Definition styleMoving : Tracker.TrackerStyle :=
  {| Tracker.bg := "#78350f"; Tracker.border := "#f59e0b"; Tracker.text := "#fde68a" |}.

Definition styleNeutral : Tracker.TrackerStyle :=
  {| Tracker.bg := "#1f2937"; Tracker.border := "#9ca3af"; Tracker.text := "#e5e7eb" |}.

(** A resolved abbreviation that is [undefined] or a string that names no
    property of [Object.prototype]. *)
Definition plainAbbr (abbr : value string) : Prop :=
  match abbr with
  | undefined => True
  | val a => inherited a = false
  | builtin _ => False
  end.

(** ** Properties of the status normalizer *)

Ltac literal_lookup :=
  rewrite ?lookup_insert, ?lookup_empty;
  repeat (case_decide; simplify_eq; try reflexivity).

Lemma overrides_lookup (a : string) :
  STATUS_OVERRIDES_BY_STATE !! a =
    if bool_decide (a ∈ ["FL"; "HI"; "AZ"]) then Some "pending" else None.
Proof.
  unfold STATUS_OVERRIDES_BY_STATE. case_bool_decide as Hin.
  - rewrite !elem_of_cons, elem_of_nil in Hin.
    destruct Hin as [->|[->|[->|[]]]]; reflexivity.
  - rewrite !elem_of_cons in Hin. literal_lookup; exfalso; apply Hin; auto.
Qed.

Lemma meta_hasOwn (s : string) :
  hasOwn STATUS_META s = bool_decide (canonical s).
Proof.
  unfold hasOwn, canonical, STATUS_ORDER.
  destruct (decide (s ∈ ["clear_friendly"; "clear_restrictive"; "pending";
                         "federal_default"])) as [Hin|Hin].
  - rewrite (bool_decide_eq_true_2 _ Hin).
    rewrite !elem_of_cons, elem_of_nil in Hin.
    destruct Hin as [->|[->|[->|[->|[]]]]]; reflexivity.
  - rewrite (bool_decide_eq_false_2 _ Hin). apply bool_decide_eq_false_2.
    rewrite !elem_of_cons in Hin. unfold STATUS_META.
    intros [m Hm]. revert Hm. literal_lookup;
      try (exfalso; apply Hin; auto; fail); discriminate.
Qed.

Lemma legacy_lookup (s : string) :
  s ∉ ["friendly"; "restrictive"; "none"; "unclear"] -> legacyMap !! s = None.
Proof.
  intros Hin. rewrite !elem_of_cons in Hin. unfold legacyMap.
  literal_lookup; exfalso; apply Hin; auto.
Qed.

Lemma truthy_nonempty (s : string) : s <> "" -> truthy s = true.
Proof.
  intros Hne. change (truthy s) with (negb (String.eqb s "")).
  by rewrite (proj2 (String.eqb_neq s "") Hne).
Qed.

Lemma truthy_string (a : string) : a <> "" -> truthy (val a) = true.
Proof.
  intros Hne. change (truthy (val a)) with (negb (String.eqb a "")).
  by rewrite (proj2 (String.eqb_neq a "") Hne).
Qed.

Lemma get_plain {A} (o : gmap string A) (k : string) :
  o !! k = None -> inherited k = false -> get o k = undefined.
Proof. intros Ho Hk. unfold get. by rewrite Ho, Hk. Qed.

Lemma get_own {A} (o : gmap string A) (k : string) (a : A) :
  o !! k = Some a -> get o k = val a.
Proof. intros Ho. unfold get. by rewrite Ho. Qed.

(** Without an override the result depends on the raw status alone. *)
Lemma normalizeStatus_noOverride (input stateAbbr : option string) :
  noOverride stateAbbr ->
  normalizeStatus input stateAbbr =
    if negb (truthy input) then val "federal_default"
    else if hasOwn STATUS_META (toKey input) then ofOption input
    else or_else (get legacyMap (toKey input)) (val "federal_default").
Proof.
  intros Hno. unfold normalizeStatus.
  destruct stateAbbr as [a|]; [|reflexivity].
  destruct Hno as [Hkey Hproto]. cbn [toKey].
  rewrite (get_plain STATUS_OVERRIDES_BY_STATE a); [|
    rewrite overrides_lookup; by rewrite bool_decide_eq_false_2 | done].
  by rewrite andb_false_r.
Qed.



Lemma inherited_not_own (k : string) :
  inherited k = true ->
  STATUS_OVERRIDES_BY_STATE !! k = None /\ legacyMap !! k = None
  /\ hasOwn STATUS_META k = false /\ truthy k = true.
Proof.
  intros Hk. apply bool_decide_eq_true_1 in Hk. unfold ObjectPrototype in Hk.
  rewrite !elem_of_cons, elem_of_nil in Hk.
  repeat destruct Hk as [Hk|Hk]; try done; subst k; vm_compute; done.
Qed.

(** C2, at a raw status or a state abbreviation that names a property every
    object inherits: the lookup in [legacyMap], or the one in the override
    table, finds the inherited function, which is truthy, and
    [normalizeStatus] returns it in place of "federal_default". *)
Theorem normalizeStatus_inherited_key (k : string) :
  inherited k = true ->
  (forall stateAbbr, noOverride stateAbbr ->
     normalizeStatus (Some k) stateAbbr = builtin k)
  /\ (forall input, normalizeStatus input (Some k) = builtin k).
Proof.
  intros Hk. destruct (inherited_not_own k Hk) as (Hov & Hleg & Hmeta & Htr).
  split.
  - intros stateAbbr Hno. rewrite (normalizeStatus_noOverride _ _ Hno).
    cbn [toKey]. change (truthy (Some k)) with (truthy k).
    rewrite Htr, Hmeta. unfold get. rewrite Hleg, Hk. reflexivity.
  - intros input. unfold normalizeStatus. cbn [toKey]. unfold get.
    rewrite Hov, Hk. change (truthy (Some k)) with (truthy k).
    by rewrite Htr.
Qed.

Lemma normalizeStatus_inherited_key_witness :
  normalizeStatus (Some "constructor") (Some "NY") = builtin "constructor"
  /\ normalizeStatus None (Some "toString") = builtin "toString".
Proof.
  split.
  - refine (proj1 (normalizeStatus_inherited_key "constructor" eq_refl) (Some "NY") _).
    split; [rewrite !elem_of_cons, elem_of_nil; intros [?|[?|[?|[]]]]; discriminate
           | vm_compute; reflexivity].
  - exact (proj2 (normalizeStatus_inherited_key "toString" eq_refl) None).
Defined.

(** The behaviour C2 describes, for the abbreviations and raw statuses that
    name no property of [Object.prototype]. *)
Theorem normalizeStatus_legacy_and_default (input stateAbbr : option string) :
  noOverride stateAbbr ->
  (truthy input = false -> normalizeStatus input stateAbbr = val "federal_default")
  /\ (input = Some "friendly" -> normalizeStatus input stateAbbr = val "clear_friendly")
  /\ (input = Some "restrictive" -> normalizeStatus input stateAbbr = val "clear_restrictive")
  /\ (input = Some "none" -> normalizeStatus input stateAbbr = val "federal_default")
  /\ (input = Some "unclear" -> normalizeStatus input stateAbbr = val "pending")
  /\ (forall s, input = Some s -> ~ canonical s ->
        s ∉ ["friendly"; "restrictive"; "none"; "unclear"] ->
        inherited s = false ->
        normalizeStatus input stateAbbr = val "federal_default").
Proof.
  intros Hno. rewrite (normalizeStatus_noOverride _ _ Hno).
  repeat split.
  - by intros ->.
  - by intros ->.
  - by intros ->.
  - by intros ->.
  - by intros ->.
  - intros s -> Hcan Hleg Hproto. simpl.
    rewrite meta_hasOwn, (bool_decide_eq_false_2 _ Hcan).
    rewrite (get_plain legacyMap s (legacy_lookup s Hleg) Hproto).
    by destruct (truthy (Some s)).
Qed.

Lemma normalizeStatus_legacy_and_default_witness :
  normalizeStatus (Some "unclear") (Some "NY") = val "pending".
Proof.
  refine (proj1 (proj2 (proj2 (proj2 (proj2
    (normalizeStatus_legacy_and_default (Some "unclear") (Some "NY") _))))) eq_refl).
  split; [rewrite !elem_of_cons, elem_of_nil; intros [?|[?|[?|[]]]]; discriminate
         | vm_compute; reflexivity].
Defined.

(** C3, as the claim states it, fails where an override applies: Florida is
    shown as pending whatever canonical status its record stores. *)
Lemma normalizeStatus_canonical_overridden :
  canonical "clear_friendly"
  /\ normalizeStatus (Some "clear_friendly") (Some "FL") = val "pending"
  /\ normalizeStatus (Some "clear_friendly") (Some "FL") <> val "clear_friendly".
Proof.
  split; [unfold canonical, STATUS_ORDER; rewrite !elem_of_cons; auto|].
  split; [vm_compute; reflexivity | vm_compute; discriminate].
Qed.

(** C3, amended. A canonical raw status is returned unchanged for every
    state abbreviation the override table has nothing to say about. *)
Theorem normalizeStatus_canonical_identity (input : string) (stateAbbr : option string) :
  canonical input ->
  noOverride stateAbbr ->
  normalizeStatus (Some input) stateAbbr = val input.
Proof.
  intros Hcan Hno. rewrite (normalizeStatus_noOverride _ _ Hno). simpl.
  rewrite meta_hasOwn, (bool_decide_eq_true_2 _ Hcan).
  unfold canonical, STATUS_ORDER in Hcan. rewrite !elem_of_cons, elem_of_nil in Hcan.
  destruct Hcan as [->|[->|[->|[->|[]]]]]; reflexivity.
Qed.

Lemma normalizeStatus_canonical_identity_witness :
  normalizeStatus (Some "clear_restrictive") (Some "NY") = val "clear_restrictive".
Proof.
  apply (normalizeStatus_canonical_identity "clear_restrictive" (Some "NY")).
  - unfold canonical, STATUS_ORDER. rewrite !elem_of_cons. auto.
  - split; [rewrite !elem_of_cons, elem_of_nil; intros [?|[?|[?|[]]]]; discriminate
           | vm_compute; reflexivity].
Defined.

(** ** Properties of the colour deriver *)

Lemma clamp_saturate (v : Z) : clamp v = saturate v.
Proof. unfold clamp, saturate. repeat case_match; lia. Qed.

Lemma saturate_byte (v : Z) : 0 <= saturate v <= 255.
Proof. unfold saturate. repeat case_match; lia. Qed.

Lemma ToInt32_small (x : Z) : - 2 ^ 31 <= x < 2 ^ 31 -> ToInt32 x = x.
Proof. intros Hx. unfold ToInt32. rewrite Z.mod_small; lia. Qed.

(** The three shifts and masks of [shiftHexColor] take a 24-bit number apart
    into its bytes. *)
Lemma decompose_bytes (r g b : Z) :
  0 <= r < 256 -> 0 <= g < 256 -> 0 <= b < 256 ->
  let num := r * 65536 + g * 256 + b in
  sar num 16 = r /\ band (sar num 8) 255 = g /\ band num 255 = b.
Proof.
  intros Hr Hg Hb num.
  assert (Hhi : num `div` 2 ^ 16 = r)
    by (symmetry; apply (Z.div_unique _ _ _ (g * 256 + b)); lia).
  assert (Hmid : num `div` 2 ^ 8 = r * 256 + g)
    by (symmetry; apply (Z.div_unique _ _ _ b); lia).
  unfold sar, band.
  change (16 `mod` 32) with 16. change (8 `mod` 32) with 8.
  rewrite (ToInt32_small num), (ToInt32_small 255) by lia.
  rewrite !Z.shiftr_div_pow2, Hhi, Hmid by lia.
  rewrite (ToInt32_small (r * 256 + g)) by lia.
  change 255 with (Z.ones 8). rewrite !Z.land_ones by lia.
  change (2 ^ 8) with 256.
  repeat split.
  - symmetry. apply (Z.mod_unique _ _ r); lia.
  - symmetry. apply (Z.mod_unique _ _ (r * 256 + g)); lia.
Qed.

Lemma lor_disjoint (hi lo k : Z) :
  0 <= k -> 0 <= lo < 2 ^ k -> Z.lor (hi * 2 ^ k) lo = hi * 2 ^ k + lo.
Proof.
  intros Hk Hlo.
  assert (Hland : Z.land (hi * 2 ^ k) lo = 0).
  { apply Z.bits_inj'. intros n Hn.
    rewrite Z.land_spec, Z.bits_0, <- Z.shiftl_mul_pow2, Z.shiftl_spec by lia.
    destruct (Z.lt_ge_cases n k) as [Hlt|Hge].
    - rewrite (Z.testbit_neg_r hi) by lia. reflexivity.
    - replace lo with (lo `mod` 2 ^ k) by (apply Z.mod_small; lia).
      rewrite Z.mod_pow2_bits_high by lia. apply andb_false_r. }
  rewrite <- Z.lxor_lor by exact Hland.
  symmetry. apply Z.add_nocarry_lxor. exact Hland.
Qed.

(** The two shifts and ors of [shiftHexColor] put three bytes together. *)
Lemma compose_bytes (r g b : Z) :
  0 <= r < 256 -> 0 <= g < 256 -> 0 <= b < 256 ->
  bor (bor (shl r 16) (shl g 8)) b = r * 65536 + g * 256 + b.
Proof.
  intros Hr Hg Hb. unfold bor, shl.
  change (16 `mod` 32) with 16. change (8 `mod` 32) with 8.
  rewrite !(ToInt32_small r), !(ToInt32_small g), !(ToInt32_small b) by lia.
  rewrite !Z.shiftl_mul_pow2 by lia.
  rewrite !(ToInt32_small (r * 2 ^ 16)), !(ToInt32_small (g * 2 ^ 8)) by lia.
  rewrite (lor_disjoint r (g * 2 ^ 8) 16) by lia.
  rewrite ToInt32_small by lia.
  replace (r * 2 ^ 16 + g * 2 ^ 8) with ((r * 256 + g) * 2 ^ 8) by lia.
  rewrite (lor_disjoint (r * 256 + g) b 8) by lia.
  lia.
Qed.

(** *** Strings *)

Lemma append_cons (c : ascii) (s t : string) :
  String c s +:+ t = String c (s +:+ t).
Proof. reflexivity. Qed.

Lemma append_nil_l (t : string) : "" +:+ t = t.
Proof. reflexivity. Qed.

Lemma append_nil_r (s : string) : s +:+ "" = s.
Proof. induction s as [|c s IH]; [reflexivity|]. by rewrite append_cons, IH. Qed.

Lemma append_assoc (s t u : string) : (s +:+ t) +:+ u = s +:+ (t +:+ u).
Proof.
  induction s as [|c s IH]; [reflexivity|]. by rewrite !append_cons, IH.
Qed.

Lemma length_append (s t : string) :
  String.length (s +:+ t) = (String.length s + String.length t)%nat.
Proof.
  induction s as [|c s IH]; [reflexivity|].
  rewrite append_cons. simpl. by rewrite IH.
Qed.

Lemma zeros_S (k : nat) : zeros (S k) = String "0" (zeros k).
Proof.
  unfold zeros. simpl. f_equal.
  induction k as [|k IH]; [reflexivity|]. simpl. by rewrite IH.
Qed.

Lemma zeros_snoc (k : nat) : zeros k +:+ "0" = String "0" (zeros k).
Proof.
  induction k as [|k IH]; [reflexivity|].
  by rewrite !zeros_S, append_cons, IH.
Qed.

Lemma length_zeros (k : nat) : String.length (zeros k) = k.
Proof. induction k as [|k IH]; [reflexivity|]. rewrite zeros_S. simpl. by rewrite IH. Qed.

(** *** Numerals *)

Lemma fixedDigits_zero (R : Z) (k : nat) : fixedDigits R k 0 = zeros k.
Proof.
  induction k as [|k IH]; [reflexivity|]. simpl.
  rewrite Zdiv_0_l, IH, Zmod_0_l, zeros_S. apply zeros_snoc.
Qed.

Lemma length_fixedDigits (R : Z) (k : nat) (n : Z) :
  String.length (fixedDigits R k n) = k.
Proof.
  revert n. induction k as [|k IH]; intros n; [reflexivity|]. simpl.
  rewrite length_append, IH. simpl. lia.
Qed.

Lemma digitsOf_acc (R : Z) (fuel : nat) (n : Z) (acc : string) :
  digitsOf fuel R n acc = digitsOf fuel R n "" +:+ acc.
Proof.
  revert n acc. induction fuel as [|fuel IH]; intros n acc; [reflexivity|].
  simpl. destruct (n `div` R =? 0); [reflexivity|].
  rewrite IH, (IH _ (String _ "")), append_assoc. reflexivity.
Qed.

(** With enough fuel [digitsOf] yields the fixed-width numeral without its
    leading zeros. *)
Lemma digitsOf_fixed (R : Z) (fuel k : nat) (n : Z) :
  2 <= R ->
  0 <= n < R ^ Z.of_nat fuel -> n < R ^ Z.of_nat k ->
  (0 < fuel)%nat -> (0 < k)%nat ->
  exists z : nat,
    (z + String.length (digitsOf fuel R n ""))%nat = k
    /\ fixedDigits R k n = zeros z +:+ digitsOf fuel R n "".
Proof.
  intros HR. revert k n.
  induction fuel as [|fuel IH]; intros k n Hn Hk Hfuel Hpos; [lia|].
  destruct k as [|k]; [lia|]. clear Hfuel Hpos.
  assert (Hq : 0 <= n `div` R) by (apply Z.div_pos; lia).
  assert (Hqf : n `div` R < R ^ Z.of_nat fuel).
  { apply Z.div_lt_upper_bound; [lia|].
    rewrite Nat2Z.inj_succ, Z.pow_succ_r in Hn; lia. }
  assert (Hqk : n `div` R < R ^ Z.of_nat k).
  { apply Z.div_lt_upper_bound; [lia|].
    rewrite Nat2Z.inj_succ, Z.pow_succ_r in Hk; lia. }
  simpl. destruct (n `div` R =? 0) eqn:Hz.
  - apply Z.eqb_eq in Hz. rewrite Hz, fixedDigits_zero.
    exists k. simpl. split; [lia | reflexivity].
  - apply Z.eqb_neq in Hz.
    destruct (IH k (n `div` R)) as (z & Hlen & Hfix); try lia.
    + destruct fuel; [simpl in Hqf; lia | lia].
    + destruct k; [simpl in Hqk; lia | lia].
    + exists z. rewrite digitsOf_acc, Hfix, append_assoc, length_append.
      simpl. split; [lia | reflexivity].
Qed.

Lemma below_pow_log2 (R n : Z) :
  2 <= R -> 0 <= n -> n < R ^ Z.of_nat (S (Z.to_nat (Z.log2 n))).
Proof.
  intros HR Hn. rewrite Nat2Z.inj_succ, Z2Nat.id by apply Z.log2_nonneg.
  destruct (Z.eq_dec n 0) as [->|Hne].
  - apply Z.pow_pos_nonneg; [lia | simpl; lia].
  - apply Z.lt_le_trans with (2 ^ Z.succ (Z.log2 n)).
    + apply Z.log2_spec. lia.
    + apply Z.pow_le_mono_l. lia.
Qed.

(** [n.toString(R).padStart(k, "0")] is the numeral of exactly [k] digits. *)
Lemma padStart_toString (R : Z) (k : nat) (n : Z) :
  2 <= R -> 0 <= n < R ^ Z.of_nat k -> (0 < k)%nat ->
  padStart (Z.of_nat k) "0" (toString n R) = fixedDigits R k n.
Proof.
  intros HR Hn Hk. unfold toString.
  destruct (n <? 0) eqn:Hneg; [apply Z.ltb_lt in Hneg; lia|].
  rewrite Z.abs_eq by lia.
  destruct (digitsOf_fixed R (S (Z.to_nat (Z.log2 n))) k n) as (z & Hlen & Hfix);
    try lia.
  { split; [lia | apply below_pow_log2; lia]. }
  rewrite Hfix. unfold padStart, strlen.
  set (numeral := digitsOf _ R n "") in *.
  change (negb (truthy "0")) with false. rewrite orb_false_r.
  destruct (Z.leb_spec (Z.of_nat k) (Z.of_nat (String.length numeral))).
  - replace z with 0%nat by lia. reflexivity.
  - replace (Z.to_nat _) with z by lia. reflexivity.
Qed.

(** A fixed-width numeral is the concatenation of the numerals of its high
    and low parts. *)
Lemma fixedDigits_app (R : Z) (j k : nat) (hi lo : Z) :
  2 <= R -> 0 <= lo < R ^ Z.of_nat k ->
  fixedDigits R (j + k) (hi * R ^ Z.of_nat k + lo) =
    fixedDigits R j hi +:+ fixedDigits R k lo.
Proof.
  intros HR. revert lo. induction k as [|k IH]; intros lo Hlo.
  - simpl in Hlo. replace lo with 0 by lia.
    rewrite Nat.add_0_r, Z.pow_0_r, Z.mul_1_r, Z.add_0_r.
    simpl. by rewrite append_nil_r.
  - rewrite Nat.add_succ_r. simpl fixedDigits.
    rewrite Nat2Z.inj_succ, Z.pow_succ_r in * by lia.
    assert (Hdiv : (hi * (R * R ^ Z.of_nat k) + lo) `div` R
                   = hi * R ^ Z.of_nat k + lo `div` R).
    { replace (hi * (R * R ^ Z.of_nat k) + lo)
        with (lo + (hi * R ^ Z.of_nat k) * R) by lia.
      rewrite Z.div_add by lia. lia. }
    assert (Hmod : (hi * (R * R ^ Z.of_nat k) + lo) `mod` R = lo `mod` R).
    { replace (hi * (R * R ^ Z.of_nat k) + lo)
        with (lo + (hi * R ^ Z.of_nat k) * R) by lia.
      apply Z.mod_add. lia. }
    rewrite Hdiv, Hmod, IH, append_assoc; [reflexivity|].
    split; [apply Z.div_pos; lia | apply Z.div_lt_upper_bound; lia].
Qed.

(** *** Reading a hexadecimal numeral *)

Lemma hex_digit_facts (c : ascii) (d : Z) :
  radixDigit 16 c = Some d ->
  0 <= d < 16 /\ isWhiteSpace c = false /\ c <> "#"%char
  /\ Ascii.eqb c "-" = false /\ Ascii.eqb c "+" = false
  /\ Ascii.eqb c "x" = false /\ Ascii.eqb c "X" = false.
Proof.
  destruct c as [[] [] [] [] [] [] [] []]; vm_compute;
    first [ discriminate
          | intros [= <-]; repeat split; congruence ].
Qed.

Lemma allDigits_cons (R : Z) (c : ascii) (s : string) :
  allDigits R (String c s) = true ->
  (exists d, radixDigit R c = Some d) /\ allDigits R s = true.
Proof.
  simpl. intros [Hc Hs]%andb_true_iff.
  apply bool_decide_eq_true_1 in Hc. destruct Hc as [d Hd]. eauto.
Qed.

Lemma substring_all (s : string) : String.substring 0 (String.length s) s = s.
Proof. induction s as [|c s IH]; [reflexivity|]. simpl. by rewrite IH. Qed.

Lemma prefix_nil (s : string) : String.prefix "" s = true.
Proof. by destruct s. Qed.

Lemma replace_hash_prefix (s : string) : replace "#" "" (String "#" s) = s.
Proof.
  simpl. rewrite Nat.sub_0_r, prefix_nil. apply substring_all.
Qed.

Lemma replace_hash_digits (s : string) :
  allDigits 16 s = true -> replace "#" "" s = s.
Proof.
  induction s as [|c s IH]; [reflexivity|].
  intros [[d Hd] Hs]%allDigits_cons.
  destruct (hex_digit_facts c d Hd) as (_ & _ & Hhash & _).
  cbn [replace String.prefix].
  destruct (ascii_dec "#" c) as [<-|_]; [done|]. by rewrite IH.
Qed.

Lemma fmap_mul_1 (o : option Z) : (λ n, 1 * n) <$> o = o.
Proof. destruct o as [n|]; [|reflexivity]. simpl. f_equal. lia. Qed.

(** A numeral of hexadecimal digits only is read in full: there is no white
    space, sign or [0x] prefix for [parseInt] to skip. *)
Lemma parseInt_hex (s : string) :
  allDigits 16 s = true -> parseInt s 16 = digitsValue 16 None s.
Proof.
  intros Hs. unfold parseInt.
  change ((16 + 2 ^ 31) `mod` 2 ^ 32 - 2 ^ 31) with 16.
  destruct s as [|c0 s]; [reflexivity|].
  apply allDigits_cons in Hs as [[d0 Hd0] Hs].
  destruct (hex_digit_facts c0 d0 Hd0) as (_ & Hws & _ & Hminus & Hplus & _).
  cbn [trimStart stripSign]. rewrite Hws. cbn [stripSign]. rewrite Hminus, Hplus.
  assert (Hprefix : stripHexPrefix (String c0 s) = None).
  { destruct s as [|c1 s]; [reflexivity|].
    apply allDigits_cons in Hs as [[d1 Hd1] _].
    destruct (hex_digit_facts c1 d1 Hd1) as (_ & _ & _ & _ & _ & Hx & HX).
    cbn [stripHexPrefix]. rewrite Hx, HX, andb_false_r. reflexivity. }
  rewrite Hprefix. cbn -[digitsValue]. apply fmap_mul_1.
Qed.

Lemma channels_inv (s : string) (r g b : Z) :
  channels s = Some (r, g, b) ->
  exists r1 r0 g1 g0 b1 b0 dr1 dr0 dg1 dg0 db1 db0,
    s = String r1 (String r0 (String g1 (String g0 (String b1 (String b0 "")))))
    /\ radixDigit 16 r1 = Some dr1 /\ radixDigit 16 r0 = Some dr0
    /\ radixDigit 16 g1 = Some dg1 /\ radixDigit 16 g0 = Some dg0
    /\ radixDigit 16 b1 = Some db1 /\ radixDigit 16 b0 = Some db0
    /\ r = 16 * dr1 + dr0 /\ g = 16 * dg1 + dg0 /\ b = 16 * db1 + db0.
Proof.
  destruct s as [|r1 [|r0 [|g1 [|g0 [|b1 [|b0 [|]]]]]]]; try discriminate.
  unfold channels, hexByte. intros H.
  repeat match type of H with
  | context [radixDigit 16 ?c] =>
      let d := fresh "d" in
      destruct (radixDigit 16 c) as [d|] eqn:?; simpl in H; [|discriminate]
  end.
  injection H as <- <- <-. do 12 eexists. repeat split; eauto.
Qed.

Lemma channels_digits (s : string) :
  is_Some (channels s) <-> String.length s = 6%nat /\ allDigits 16 s = true.
Proof.
  split.
  - intros [[[r g] b] H]. apply channels_inv in H.
    destruct H as (r1 & r0 & g1 & g0 & b1 & b0 & ? & ? & ? & ? & ? & ? & -> & H).
    destruct H as (H1 & H2 & H3 & H4 & H5 & H6 & _).
    split; [reflexivity|]. simpl. rewrite H1, H2, H3, H4, H5, H6. reflexivity.
  - intros [Hlen Hs].
    destruct s as [|r1 [|r0 [|g1 [|g0 [|b1 [|b0 [|]]]]]]]; try discriminate.
    repeat (apply allDigits_cons in Hs as [[? ?] Hs]).
    unfold channels, hexByte. simplify_option_eq. eauto.
Qed.

Lemma channels_bytes (s : string) (r g b : Z) :
  channels s = Some (r, g, b) ->
  0 <= r < 256 /\ 0 <= g < 256 /\ 0 <= b < 256.
Proof.
  intros H. apply channels_inv in H.
  destruct H as (r1 & r0 & g1 & g0 & b1 & b0 & ? & ? & ? & ? & ? & ? & -> & H).
  destruct H as (H1 & H2 & H3 & H4 & H5 & H6 & -> & -> & ->).
  apply hex_digit_facts in H1, H2, H3, H4, H5, H6. lia.
Qed.

Lemma parseInt_channels (s : string) (r g b : Z) :
  channels s = Some (r, g, b) ->
  parseInt s 16 = Some (r * 65536 + g * 256 + b).
Proof.
  intros H. rewrite parseInt_hex by (apply channels_digits; eauto).
  apply channels_inv in H.
  destruct H as (r1 & r0 & g1 & g0 & b1 & b0 & ? & ? & ? & ? & ? & ? & -> & H).
  destruct H as (H1 & H2 & H3 & H4 & H5 & H6 & -> & -> & ->).
  cbn [digitsValue]. rewrite H1, H2, H3, H4, H5, H6. cbn [default].
  unfold id. f_equal. lia.
Qed.

(** What [shiftHexColor] computes once the input has passed its checks. *)
Lemma shiftHexColor_normalized (hex : string) (amount r g b : Z) :
  channels (replace "#" "" hex) = Some (r, g, b) ->
  shiftHexColor hex amount =
    recompose (saturate (r + amount)) (saturate (g + amount)) (saturate (b + amount)).
Proof.
  intros H. unfold shiftHexColor.
  destruct (proj1 (channels_digits _) (ex_intro _ _ H)) as [Hlen _].
  unfold strlen. rewrite Hlen. cbn [Z.of_nat Z.eqb negb Pos.of_succ_nat Pos.succ Pos.eqb].
  rewrite (parseInt_channels _ _ _ _ H).
  destruct (channels_bytes _ _ _ _ H) as (Hr & Hg & Hb).
  destruct (decompose_bytes r g b Hr Hg Hb) as (-> & -> & ->).
  rewrite !clamp_saturate.
  pose proof (saturate_byte (r + amount)) as Hr'.
  pose proof (saturate_byte (g + amount)) as Hg'.
  pose proof (saturate_byte (b + amount)) as Hb'.
  set (r' := saturate (r + amount)) in *.
  set (g' := saturate (g + amount)) in *.
  set (b' := saturate (b + amount)) in *.
  rewrite compose_bytes by lia.
  rewrite (padStart_toString 16 6) by (change (16 ^ Z.of_nat 6) with 16777216; lia).
  unfold recompose. f_equal.
  replace (r' * 65536 + g' * 256 + b')
    with ((r' * 16 ^ Z.of_nat 2 + g') * 16 ^ Z.of_nat 2 + b')
    by (change (16 ^ Z.of_nat 2) with 256; lia).
  rewrite (fixedDigits_app 16 4 2), (fixedDigits_app 16 2 2), append_assoc
    by (change (16 ^ Z.of_nat 2) with 256; lia).
  reflexivity.
Qed.

Lemma lowerHex_app (s t : string) :
  lowerHex (s +:+ t) = lowerHex s && lowerHex t.
Proof.
  induction s as [|c s IH]; [reflexivity|].
  rewrite append_cons. simpl. by rewrite IH, andb_assoc.
Qed.

Lemma lowerHex_fixedDigits (k : nat) (n : Z) : lowerHex (fixedDigits 16 k n) = true.
Proof.
  revert n. induction k as [|k IH]; intros n; [reflexivity|].
  simpl. rewrite lowerHex_app, IH. simpl.
  pose proof (Z.mod_pos_bound n 16 ltac:(lia)) as Hd.
  set (d := n `mod` 16) in *.
  assert (Hcases : d = 0 \/ d = 1 \/ d = 2 \/ d = 3 \/ d = 4 \/ d = 5 \/ d = 6
                   \/ d = 7 \/ d = 8 \/ d = 9 \/ d = 10 \/ d = 11 \/ d = 12
                   \/ d = 13 \/ d = 14 \/ d = 15) by lia.
  repeat (destruct Hcases as [-> | Hcases]; [vm_compute; reflexivity|]).
  subst d. rewrite Hcases. vm_compute; reflexivity.
Qed.

(** Inputs that do not reach the arithmetic come back as they are. *)
Lemma shiftHexColor_wrong_length (hex : string) (amount : Z) :
  strlen (replace "#" "" hex) <> 6 -> shiftHexColor hex amount = hex.
Proof.
  intros Hlen. unfold shiftHexColor.
  by rewrite (proj2 (Z.eqb_neq _ _) Hlen).
Qed.

Lemma shiftHexColor_not_a_number (hex : string) (amount : Z) :
  parseInt (replace "#" "" hex) 16 = None -> shiftHexColor hex amount = hex.
Proof.
  intros Hnan. unfold shiftHexColor. rewrite Hnan. by destruct (negb _).
Qed.

(** C5, at an input of six characters that starts with hexadecimal digits
    and ends with another character: [parseInt] reads the digits it finds
    and ignores the rest, so the input is not returned as it is but shifted
    as the colour of the digits read. *)
Theorem shiftHexColor_trailing_garbage :
  channels "12345z" = None
  /\ shiftHexColor "12345z" 0 = "#012345"
  /\ shiftHexColor "12345z" 0 <> "12345z".
Proof. repeat split; vm_compute; congruence. Qed.

(** C6. For an input of six hexadecimal digits, with or without a leading
    "#", and any integer amount, [shiftHexColor] takes the red, green and
    blue bytes of the input, adds the amount to each, keeps each within
    0..255 and writes the three bytes as "#" and six hexadecimal digits. *)
Theorem shiftHexColor_shifts_channels (h : string) (amount r g b : Z) :
  channels h = Some (r, g, b) ->
  (0 <= r < 256 /\ 0 <= g < 256 /\ 0 <= b < 256)
  /\ shiftHexColor h amount =
       recompose (saturate (r + amount)) (saturate (g + amount)) (saturate (b + amount))
  /\ shiftHexColor (String "#" h) amount =
       recompose (saturate (r + amount)) (saturate (g + amount)) (saturate (b + amount)).
Proof.
  intros H. split; [exact (channels_bytes _ _ _ _ H)|].
  split; apply shiftHexColor_normalized.
  - rewrite replace_hash_digits; [exact H|].
    apply channels_digits. eauto.
  - by rewrite replace_hash_prefix.
Qed.

Lemma shiftHexColor_shifts_channels_witness :
  shiftHexColor "#000000" 26 = "#1a1a1a" /\ shiftHexColor "#ffffff" 26 = "#ffffff".
Proof.
  split.
  - exact (proj2 (proj2 (shiftHexColor_shifts_channels "000000" 26 0 0 0 eq_refl))).
  - exact (proj2 (proj2 (shiftHexColor_shifts_channels "ffffff" 26 255 255 255 eq_refl))).
Defined.

(** ** Properties of the region resolver *)

Lemma padStart_zero (k : Z) (s : string) :
  padStart k "0" s = zeros (Z.to_nat (k - strlen s)) +:+ s.
Proof.
  unfold padStart. change (negb (truthy "0")) with false. rewrite orb_false_r.
  destruct (Z.leb_spec k (strlen s)); [|reflexivity].
  by replace (Z.to_nat _) with 0%nat by lia.
Qed.

Lemma allDigits_app (R : Z) (s t : string) :
  allDigits R (s +:+ t) = allDigits R s && allDigits R t.
Proof.
  induction s as [|c s IH]; [reflexivity|].
  rewrite append_cons. simpl. by rewrite IH, andb_assoc.
Qed.

Lemma allDigits_zeros (k : nat) : allDigits 10 (zeros k) = true.
Proof. induction k as [|k IH]; [reflexivity|]. rewrite zeros_S. simpl. exact IH. Qed.

Lemma decimal_digitChar (n : Z) :
  radixDigit 10 (digitChar (n `mod` 10)) = Some (n `mod` 10).
Proof.
  pose proof (Z.mod_pos_bound n 10 ltac:(lia)) as Hd.
  set (d := n `mod` 10) in *.
  assert (Hcases : d = 0 \/ d = 1 \/ d = 2 \/ d = 3 \/ d = 4 \/ d = 5 \/ d = 6
                   \/ d = 7 \/ d = 8 \/ d = 9) by lia.
  repeat (destruct Hcases as [-> | Hcases]; [reflexivity|]).
  by rewrite Hcases.
Qed.

Lemma allDigits_digitsOf (fuel : nat) (n : Z) (acc : string) :
  allDigits 10 acc = true -> allDigits 10 (digitsOf fuel 10 n acc) = true.
Proof.
  revert n acc. induction fuel as [|fuel IH]; intros n acc Hacc; [exact Hacc|].
  assert (Hstep : allDigits 10 (String (digitChar (n `mod` 10)) acc) = true).
  { simpl. rewrite decimal_digitChar, Hacc. reflexivity. }
  simpl. destruct (n `div` 10 =? 0); [exact Hstep | by apply IH].
Qed.

Lemma allDigits_String_ (id : featureId) :
  numericId id -> allDigits 10 (String_ id) = true.
Proof.
  destruct id as [n|s]; simpl; [|done]. intros [Hn _].
  unfold toString. rewrite (proj2 (Z.ltb_ge _ _) Hn). by apply allDigits_digitsOf.
Qed.

(** The code is made of decimal digits, two of them at least. *)
Lemma fips_digits (geo : Geography) :
  numericId (geo_id geo) -> allDigits 10 (fips geo) = true /\ 2 <= strlen (fips geo).
Proof.
  intros Hid. unfold fips. rewrite padStart_zero. split.
  - by rewrite allDigits_app, allDigits_zeros, allDigits_String_.
  - unfold strlen. rewrite length_append, length_zeros. unfold strlen. lia.
Qed.

(** No property of [Object.prototype] has a name that starts with a digit. *)
Lemma inherited_digits (k : string) :
  allDigits 10 k = true -> inherited k = false.
Proof.
  intros Hk. apply bool_decide_eq_false_2. unfold ObjectPrototype.
  rewrite !elem_of_cons, elem_of_nil. intros Hin.
  repeat destruct Hin as [Hin|Hin]; try done; subst k; discriminate.
Qed.

(** C7. The resolver pads the numeric identifier of the feature (a natural
    number below 2^53 or a string of decimal digits) with zeros to two
    characters and reads the code table first: an abbreviation found
    there is the answer whatever the name table holds for the feature, and
    only a code the table does not know sends the resolver to the name
    table, whose answer is then the result. *)
Theorem abbr_code_before_name
    (FIPS_TO_ABBR STATE_NAME_TO_ABBR : gmap string string) (geo : Geography) :
  numericId (geo_id geo) ->
  fips geo = zeros (Z.to_nat (2 - strlen (String_ (geo_id geo)))) +:+ String_ (geo_id geo)
  /\ 2 <= strlen (fips geo)
  /\ (forall a, FIPS_TO_ABBR !! fips geo = Some a -> a <> "" ->
        abbr FIPS_TO_ABBR STATE_NAME_TO_ABBR geo = val a)
  /\ (FIPS_TO_ABBR !! fips geo = None ->
        abbr FIPS_TO_ABBR STATE_NAME_TO_ABBR geo =
          get STATE_NAME_TO_ABBR (toKey (geo_name geo))).
Proof.
  intros Hid. destruct (fips_digits geo Hid) as [Hdigits Hlen].
  split; [apply padStart_zero|]. split; [exact Hlen|]. split.
  - intros a Ha Hne. unfold abbr, or_else.
    by rewrite (get_own _ _ _ Ha), (truthy_string a Hne).
  - intros Hnone. unfold abbr, or_else.
    by rewrite (get_plain _ _ Hnone (inherited_digits _ Hdigits)).
Qed.

Lemma abbr_code_before_name_witness :
  abbr {["12" := "FL"]} {["Georgia" := "GA"]}
       {| geo_id := IdNumber 12; geo_name := Some "Georgia" |} = val "FL"
  /\ abbr {["12" := "FL"]} {["Georgia" := "GA"]}
          {| geo_id := IdString "99"; geo_name := Some "Georgia" |} = val "GA"
  /\ fips {| geo_id := IdNumber 7; geo_name := None |} = "07".
Proof.
  split; [|split].
  - refine (proj1 (proj2 (proj2 (abbr_code_before_name {["12" := "FL"]} {["Georgia" := "GA"]}
      {| geo_id := IdNumber 12; geo_name := Some "Georgia" |} _))) "FL" eq_refl _);
      [simpl; lia | discriminate].
  - exact (proj2 (proj2 (proj2 (abbr_code_before_name {["12" := "FL"]} {["Georgia" := "GA"]}
      {| geo_id := IdString "99"; geo_name := Some "Georgia" |} eq_refl))) eq_refl).
  - refine (proj1 (abbr_code_before_name ∅ ∅
      {| geo_id := IdNumber 7; geo_name := None |} _)). simpl; lia.
Defined.

(** ** Properties of the source label formatter *)

(** C9. [getSourceLabel] returns the host name followed by the path of the
    URL the input parses to, returns the input itself when the parser throws,
    and in both cases completes normally. *)
Theorem getSourceLabel_fail_soft (host : Host) (source : string) :
  (forall parsed, newURL host source = Normal parsed ->
     getSourceLabel host source = Normal (hostname parsed +:+ pathname parsed))
  /\ (forall error, newURL host source = Throw error ->
        getSourceLabel host source = Normal source)
  /\ (exists label, getSourceLabel host source = Normal label).
Proof.
  unfold getSourceLabel.
  destruct (newURL host source) as [parsed|error]; simpl.
  - split; [by intros ? [= <-] | split; [discriminate | eauto]].
  - split; [discriminate | split; [reflexivity | eauto]].
Qed.

Example getSourceLabel_reference_host :
  getSourceLabel refHost "https://www.congress.gov/bill/119/s1582"
    = Normal "www.congress.gov/bill/119/s1582"
  /\ getSourceLabel refHost "see the statute" = Normal "see the statute".
Proof. split; vm_compute; reflexivity. Qed.

(** ** Properties of the date formatter *)

Lemma decimal_fixed2 (n : Z) :
  0 <= n < 100 ->
  decimal [digitChar ((n `div` 10) `mod` 10); digitChar (n `mod` 10)] = Some n.
Proof.
  intros Hn. unfold decimal. cbn [foldl]. rewrite !decimal_digitChar.
  cbn. f_equal. Z.div_mod_to_equations. lia.
Qed.

Lemma decimal_fixed4 (n : Z) :
  0 <= n < 10000 ->
  decimal [digitChar ((((n `div` 10) `div` 10) `div` 10) `mod` 10);
           digitChar (((n `div` 10) `div` 10) `mod` 10);
           digitChar ((n `div` 10) `mod` 10); digitChar (n `mod` 10)] = Some n.
Proof.
  intros Hn. unfold decimal. cbn [foldl]. rewrite !decimal_digitChar.
  cbn. f_equal. Z.div_mod_to_equations. lia.
Qed.

Lemma daysInMonth_bound (y m : Z) : 28 <= daysInMonth y m <= 31.
Proof. unfold daysInMonth. repeat case_match; lia. Qed.

Lemma isoDate_chars (y m d : Z) :
  isoDate y m d =
    String (digitChar ((((y `div` 10) `div` 10) `div` 10) `mod` 10))
   (String (digitChar (((y `div` 10) `div` 10) `mod` 10))
   (String (digitChar ((y `div` 10) `mod` 10))
   (String (digitChar (y `mod` 10))
   (String "-"
   (String (digitChar ((m `div` 10) `mod` 10))
   (String (digitChar (m `mod` 10))
   (String "-"
   (String (digitChar ((d `div` 10) `mod` 10))
   (String (digitChar (d `mod` 10)) ""))))))))).
Proof. reflexivity. Qed.

(** The reference host reads the ISO form of a day back as that day. *)
Lemma refDateTime_isoDate (y m d : Z) :
  validDate y m d ->
  refDateTime (isoDate y m d +:+ "T00:00:00") = Some (y, m, d).
Proof.
  intros (Hy & Hm & Hd). pose proof (daysInMonth_bound y m) as Hdays.
  rewrite isoDate_chars, !append_cons, append_nil_l.
  cbn [refDateTime].
  change (Ascii.eqb "-" "-") with true.
  change (String.eqb "T00:00:00" "T00:00:00") with true.
  cbn [andb].
  rewrite decimal_fixed4, !decimal_fixed2 by lia. cbn [mbind option_bind].
  rewrite (proj2 (Z.leb_le 1 m)), (proj2 (Z.leb_le m 12)),
          (proj2 (Z.leb_le 1 d)), (proj2 (Z.leb_le d _)) by lia.
  reflexivity.
Qed.

Lemma refHost_dates : datesAsSpecified refHost.
Proof.
  intros y m d Hvalid. exists (y, m, d).
  split; [exact (refDateTime_isoDate y m d Hvalid) | reflexivity].
Qed.

(** C8. [formatDate] gives "N/A" for a missing or empty input, gives the
    input back when the date built from it is invalid, and completes normally
    on every input; on a host whose two date functions are as the standards
    specify them it gives the long en-US form (month name, day, year) for the
    ISO form of a day of a four-digit year. *)
Theorem formatDate_fail_soft (host : Host) :
  formatDate host None = Normal "N/A"
  /\ formatDate host (Some "") = Normal "N/A"
  /\ (forall s, s <> "" -> dateTime host (s +:+ "T00:00:00") = None ->
        formatDate host (Some s) = Normal s)
  /\ (datesAsSpecified host ->
      forall y m d, validDate y m d ->
        formatDate host (Some (isoDate y m d)) = Normal (longDate y m d))
  /\ (forall input, exists text, formatDate host input = Normal text).
Proof.
  split; [reflexivity|]. split; [reflexivity|].
  assert (Hraw : forall s, s <> "" -> dateTime host (s +:+ "T00:00:00") = None ->
                   formatDate host (Some s) = Normal s).
  { intros s Hs Hnan. unfold formatDate.
    change (truthy (Some s)) with (truthy s).
    rewrite (truthy_nonempty s Hs). cbn [negb toKey]. by rewrite Hnan. }
  split; [exact Hraw|]. split.
  - intros Hhost y m d Hvalid.
    destruct (Hhost y m d Hvalid) as (time & Htime & Hlong).
    unfold formatDate. rewrite isoDate_chars at 1. cbn [toKey].
    change (truthy (Some (String ?c ?r))) with true. cbn [negb].
    rewrite Htime. cbn [isNaN format]. by rewrite Hlong.
  - intros [s|]; [|by eexists].
    destruct (decide (s = "")) as [->|Hs]; [by eexists|].
    destruct (dateTime host (s +:+ "T00:00:00")) as [time|] eqn:Htime.
    + unfold formatDate. change (truthy (Some s)) with (truthy s).
      rewrite (truthy_nonempty s Hs). cbn [negb toKey].
      rewrite Htime. by eexists.
    + rewrite (Hraw s Hs Htime). by eexists.
Qed.

Lemma formatDate_fail_soft_witness :
  formatDate refHost (Some "2026-02-16") = Normal "February 16, 2026"
  /\ formatDate refHost (Some "not-a-date") = Normal "not-a-date"
  /\ formatDate refHost None = Normal "N/A".
Proof.
  pose proof (formatDate_fail_soft refHost) as (Hmissing & _ & Hraw & Hlong & _).
  split; [|split].
  - refine (Hlong refHost_dates 2026 2 16 _).
    unfold validDate. vm_compute. intuition discriminate.
  - exact (Hraw "not-a-date" ltac:(discriminate) eq_refl).
  - exact Hmissing.
Defined.

(** ** Properties of the selection state holder *)

Section Selection.

Variable statesData : gmap string StateRecord.
Variable ALL_STATES : gmap string string.

Lemma elem_of_dates (d : string) :
  d ∈ filterBoolean (lastUpdated <$> values statesData) <-> updateDate statesData d.
Proof.
  unfold filterBoolean, values, updateDate. rewrite list_elem_of_omap. split.
  - intros (x & Hx & Hd). destruct x as [s|]; [|discriminate].
    destruct (truthy s) eqn:Hs; [|discriminate]. injection Hd as ->.
    apply list_elem_of_fmap in Hx as (rec & Hrec & Hin).
    apply list_elem_of_fmap in Hin as ([k rec'] & -> & Hin).
    apply elem_of_map_to_list in Hin. split; [by intros ->|]. eauto.
  - intros (Hne & k & rec & Hk & Hd). exists (Some d). split.
    + apply list_elem_of_fmap. exists rec. split; [done|].
      apply list_elem_of_fmap. exists (k, rec). split; [done|].
      by apply elem_of_map_to_list.
    + by rewrite (truthy_nonempty d Hne).
Qed.

Lemma at_last {A} (xs : list A) : at_ xs (Z.of_nat (length xs) - 1) = last xs.
Proof.
  unfold at_. rewrite last_lookup. destruct xs as [|x xs]; [reflexivity|].
  rewrite (proj2 (Z.ltb_ge _ _)) by (simpl length; lia).
  f_equal. simpl length. lia.
Qed.

Lemma sorted_last_max (xs : list string) (x : string) :
  StronglySorted String.le xs -> last xs = Some x ->
  forall y, y ∈ xs -> String.le y x.
Proof.
  intros Hsorted Hlast y Hy.
  apply last_Some in Hlast as [front ->].
  apply elem_of_app in Hy as [Hy|Hy].
  - apply (StronglySorted_app_1_elem_of String.le front [x]); [done..|].
    apply list_elem_of_singleton. reflexivity.
  - apply list_elem_of_singleton in Hy as ->. reflexivity.
Qed.

Lemma latestDataDate_cases :
  (forall d, updateDate statesData d -> String.le d (latestDataDate statesData))
  /\ (updateDate statesData (latestDataDate statesData)
      \/ (latestDataDate statesData = "2026-02-11"
          /\ forall d, ~ updateDate statesData d)).
Proof.
  unfold latestDataDate, allLastUpdated.
  set (dates := filterBoolean (lastUpdated <$> values statesData)).
  pose proof (merge_sort_Permutation String.le dates) as Hperm.
  pose proof (StronglySorted_merge_sort String.le dates) as Hsorted.
  rewrite at_last.
  destruct (last (merge_sort String.le dates)) as [x|] eqn:Hlast.
  - assert (Hx : updateDate statesData x).
    { apply elem_of_dates. fold dates. rewrite <- Hperm.
      by apply last_Some_elem_of. }
    change (default "" (Some x)) with x.
    unfold or_else. rewrite (truthy_nonempty x (proj1 Hx)).
    split; [|by left].
    intros d Hd. apply (sorted_last_max _ _ Hsorted Hlast).
    rewrite Hperm. by apply elem_of_dates.
  - apply last_None in Hlast.
    assert (Hnone : forall d, ~ updateDate statesData d).
    { intros d Hd. apply elem_of_dates in Hd. fold dates in Hd.
      rewrite <- Hperm, Hlast in Hd. by apply elem_of_nil in Hd. }
    split; [intros d Hd; by destruct (Hnone d) | right; by split].
Qed.

(** The latest date is the greatest of the dates of the dataset, or the
    fixed date when the dataset has none. *)
Lemma latestDataDate_greatest :
  (forall d, updateDate statesData d -> String.le d (latestDataDate statesData))
  /\ (updateDate statesData (latestDataDate statesData)
      \/ (latestDataDate statesData = "2026-02-11"
          /\ forall d, ~ updateDate statesData d)).
Proof.
  destruct latestDataDate_cases as [Hgreatest Hwhich].
  split; [exact Hgreatest|].
  destruct Hwhich as [Hdate|[Hfixed Hnone]]; [by left | right; by split].
Qed.

Lemma selectedState_made_up (selectedAbbr : string) :
  statesData !! selectedAbbr = None ->
  inherited selectedAbbr = false ->
  exists rec,
    selectedState statesData ALL_STATES selectedAbbr = val rec
    /\ name rec = val (resolvedName ALL_STATES selectedAbbr)
    /\ status rec = Some "federal_default"
    /\ sources rec = []
    /\ (exists rest, rest <> ""
          /\ summary rec = resolvedName ALL_STATES selectedAbbr +:+ rest)
    /\ (exists law, law <> "" /\ keyLaws rec = [law])
    /\ recentDevelopments rec <> ""
    /\ lastUpdated rec = Some (latestDataDate statesData).
Proof.
  intros Hdata Hplain. unfold selectedState.
  rewrite (get_plain statesData _ Hdata Hplain). cbn [truthy value_truthy].
  assert (Hname : or_else (get ALL_STATES selectedAbbr) (val "Unknown")
                  = val (resolvedName ALL_STATES selectedAbbr)).
  { unfold resolvedName, get, or_else.
    destruct (ALL_STATES !! selectedAbbr) as [n|]; [|by rewrite Hplain].
    change (truthy (val n)) with (negb (String.eqb n "")).
    by destruct (String.eqb n ""). }
  rewrite Hname. eexists. split; [reflexivity|]. cbn.
  repeat split; try done.
  - eexists. split; [|by rewrite append_assoc]. done.
  - eexists. split; [|reflexivity]. done.
Qed.

(** The record of an abbreviation the dataset does not have and no object
    inherits is made up in full. *)
Lemma selectedState_synthesized (selectedAbbr : string) :
  statesData !! selectedAbbr = None ->
  inherited selectedAbbr = false ->
  exists rec,
    selectedState statesData ALL_STATES selectedAbbr = val rec
    /\ name rec = val (resolvedName ALL_STATES selectedAbbr)
    /\ status rec = Some "federal_default"
    /\ sources rec = []
    /\ (exists rest, rest <> ""
          /\ summary rec = resolvedName ALL_STATES selectedAbbr +:+ rest)
    /\ (exists law, law <> "" /\ keyLaws rec = [law])
    /\ recentDevelopments rec <> ""
    /\ lastUpdated rec = Some (latestDataDate statesData).
Proof. exact (selectedState_made_up selectedAbbr). Qed.

End Selection.

(** On a name every object inherits [selectedState] returns the inherited
    function in place of a record. *)
Lemma selectedState_inherited_key
    (statesData : gmap string StateRecord) (ALL_STATES : gmap string string)
    (selectedAbbr : string) :
  statesData !! selectedAbbr = None ->
  inherited selectedAbbr = true ->
  selectedState statesData ALL_STATES selectedAbbr = builtin selectedAbbr.
Proof.
  intros Hdata Hkey. unfold selectedState, get. by rewrite Hdata, Hkey.
Qed.

Lemma selectedState_synthesized_witness :
  exists rec,
    selectedState ∅ {["WY" := "Wyoming"]} "WY" = val rec
    /\ name rec = val "Wyoming"
    /\ status rec = Some "federal_default"
    /\ sources rec = []
    /\ lastUpdated rec = Some "2026-02-11".
Proof.
  destruct (selectedState_synthesized ∅ {["WY" := "Wyoming"]} "WY"
              (lookup_empty "WY") eq_refl)
    as (rec & Hrec & Hname & Hstatus & Hsources & _ & _ & _ & Hdate).
  exists rec. repeat split; assumption.
Defined.


(** ** The colour deriver as an operation on colours *)

Lemma recompose_colourString (r g b : Z) : colourString (recompose r g b).
Proof.
  unfold recompose. eexists. split; [reflexivity|]. split.
  - rewrite !length_append, !length_fixedDigits. reflexivity.
  - rewrite !lowerHex_app, !lowerHex_fixedDigits. reflexivity.
Qed.

(** What [shiftHexColor] computes from the number [parseInt] has read,
    whatever that number is. *)
Lemma shiftHexColor_parsed (hex : string) (amount num : Z) :
  strlen (replace "#" "" hex) = 6 ->
  parseInt (replace "#" "" hex) 16 = Some num ->
  shiftHexColor hex amount =
    recompose (saturate (sar num 16 + amount))
              (saturate (band (sar num 8) 255 + amount))
              (saturate (band num 255 + amount)).
Proof.
  intros Hlen Hnum. unfold shiftHexColor. rewrite Hlen, Hnum. cbn [Z.eqb Pos.eqb negb].
  rewrite !clamp_saturate.
  pose proof (saturate_byte (sar num 16 + amount)) as Hr.
  pose proof (saturate_byte (band (sar num 8) 255 + amount)) as Hg.
  pose proof (saturate_byte (band num 255 + amount)) as Hb.
  set (r := saturate (sar num 16 + amount)) in *.
  set (g := saturate (band (sar num 8) 255 + amount)) in *.
  set (b := saturate (band num 255 + amount)) in *.
  rewrite compose_bytes by lia.
  rewrite (padStart_toString 16 6) by (change (16 ^ Z.of_nat 6) with 16777216; lia).
  unfold recompose. f_equal.
  replace (r * 65536 + g * 256 + b)
    with ((r * 16 ^ Z.of_nat 2 + g) * 16 ^ Z.of_nat 2 + b)
    by (change (16 ^ Z.of_nat 2) with 256; lia).
  rewrite (fixedDigits_app 16 4 2), (fixedDigits_app 16 2 2), append_assoc
    by (change (16 ^ Z.of_nat 2) with 256; lia).
  reflexivity.
Qed.

Lemma hex_digitChar (n : Z) :
  radixDigit 16 (digitChar (n `mod` 16)) = Some (n `mod` 16).
Proof.
  pose proof (Z.mod_pos_bound n 16 ltac:(lia)) as Hd.
  set (d := n `mod` 16) in *.
  assert (Hcases : d = 0 \/ d = 1 \/ d = 2 \/ d = 3 \/ d = 4 \/ d = 5 \/ d = 6
                   \/ d = 7 \/ d = 8 \/ d = 9 \/ d = 10 \/ d = 11 \/ d = 12
                   \/ d = 13 \/ d = 14 \/ d = 15) by lia.
  repeat (destruct Hcases as [-> | Hcases]; [reflexivity|]).
  by rewrite Hcases.
Qed.

Lemma hexByte_fixedDigits (v : Z) :
  0 <= v < 256 ->
  hexByte (digitChar ((v `div` 16) `mod` 16)) (digitChar (v `mod` 16)) = Some v.
Proof.
  intros Hv. unfold hexByte. rewrite !hex_digitChar. cbn.
  f_equal. Z.div_mod_to_equations. lia.
Qed.

(** The colour string of three bytes reads back as those bytes. *)
Lemma channelsOf_recompose (r g b : Z) :
  0 <= r < 256 -> 0 <= g < 256 -> 0 <= b < 256 ->
  channelsOf (recompose r g b) = Some (r, g, b).
Proof.
  intros Hr Hg Hb. unfold channelsOf, recompose.
  change ("#" +:+ ?s) with (String "#" s). rewrite replace_hash_prefix.
  cbn [fixedDigits]. repeat first [rewrite append_cons | rewrite append_nil_l].
  cbn [channels]. rewrite !hexByte_fixedDigits by lia. reflexivity.
Qed.

Lemma saturate_below (v : Z) : 0 <= saturate v < 256.
Proof. pose proof (saturate_byte v). lia. Qed.

Lemma shiftHexColor_channelsOf (hex : string) (amount r g b : Z) :
  channelsOf hex = Some (r, g, b) ->
  shiftHexColor hex amount =
    recompose (saturate (r + amount)) (saturate (g + amount)) (saturate (b + amount)).
Proof. apply shiftHexColor_normalized. Qed.

(** The result of a shift reads back as the components of the input, each
    moved by the amount and kept within 0..255. *)
Theorem shiftHexColor_reads_back (hex : string) (amount r g b : Z) :
  channelsOf hex = Some (r, g, b) ->
  channelsOf (shiftHexColor hex amount) =
    Some (saturate (r + amount), saturate (g + amount), saturate (b + amount)).
Proof.
  intros H. rewrite (shiftHexColor_channelsOf _ _ _ _ _ H).
  apply channelsOf_recompose; apply saturate_below.
Qed.

Lemma shiftHexColor_reads_back_witness :
  channelsOf (shiftHexColor "#15803d" 26) = Some (47, 154, 87).
Proof. exact (shiftHexColor_reads_back "#15803d" 26 21 128 61 eq_refl). Defined.

Lemma saturate_saturate (v a b : Z) :
  0 <= v < 256 -> sameSign a b ->
  saturate (saturate (v + a) + b) = saturate (v + (a + b)).
Proof.
  intros Hv [[Ha Hb]|[Ha Hb]]; unfold saturate;
    repeat (case_match; try lia).
Qed.

(** Two shifts in the same direction are one shift by the sum of the
    amounts. *)
Theorem shiftHexColor_compose (hex : string) (a b : Z) :
  is_Some (channelsOf hex) -> sameSign a b ->
  shiftHexColor (shiftHexColor hex a) b = shiftHexColor hex (a + b).
Proof.
  intros [[[r g] bl] H] Hsign.
  destruct (channels_bytes _ _ _ _ H) as (Hr & Hg & Hb).
  assert (H' : channelsOf (shiftHexColor hex a) =
               Some (saturate (r + a), saturate (g + a), saturate (bl + a))).
  { rewrite (shiftHexColor_channelsOf _ _ _ _ _ H).
    apply channelsOf_recompose; apply saturate_below. }
  rewrite (shiftHexColor_channelsOf _ _ _ _ _ H').
  rewrite (shiftHexColor_channelsOf _ _ _ _ _ H).
  by rewrite !saturate_saturate.
Qed.

Lemma shiftHexColor_compose_witness :
  shiftHexColor (shiftHexColor "#a16207" 14) 26 = shiftHexColor "#a16207" (14 + 26).
Proof.
  apply (shiftHexColor_compose "#a16207" 14 26).
  - by eexists.
  - left. lia.
Defined.

(** In opposite directions the clamp loses what it has cut off. *)
Example shiftHexColor_not_inverse :
  shiftHexColor (shiftHexColor "#a16207" 200) (-200) = "#373707"
  /\ shiftHexColor "#a16207" (200 + -200) = "#a16207".
Proof. split; vm_compute; reflexivity. Qed.

Lemma lower_hex_char (c : ascii) :
  c ∈ list_ascii_of_string "0123456789abcdef" ->
  exists d, 0 <= d < 16 /\ radixDigit 16 c = Some d /\ digitChar d = c.
Proof.
  cbn [list_ascii_of_string]. rewrite !elem_of_cons, elem_of_nil. intros Hc.
  repeat destruct Hc as [Hc|Hc]; try done; subst c;
    match goal with
    | |- exists d, _ /\ radixDigit 16 ?c = _ /\ _ =>
        let v := eval vm_compute in (radixDigit 16 c) in
        match v with Some ?d => exists d end
    end; (split; [lia | split; reflexivity]).
Qed.

Lemma fixedDigits_hexByte (d1 d0 : Z) :
  0 <= d1 < 16 -> 0 <= d0 < 16 ->
  fixedDigits 16 2 (16 * d1 + d0) = String (digitChar d1) (String (digitChar d0) "").
Proof.
  intros H1 H0. cbn [fixedDigits]. rewrite append_nil_l, append_cons, append_nil_l.
  replace (((16 * d1 + d0) `div` 16) `mod` 16) with d1
    by (Z.div_mod_to_equations; lia).
  replace ((16 * d1 + d0) `mod` 16) with d0 by (Z.div_mod_to_equations; lia).
  reflexivity.
Qed.

Lemma saturate_byte_id (v : Z) : 0 <= v < 256 -> saturate (v + 0) = v.
Proof. intros Hv. unfold saturate. repeat case_match; lia. Qed.

(** A colour string in the form [shiftHexColor] writes is left as it is by
    a shift by 0: writing the number read gives the digits back. *)
Theorem shiftHexColor_zero_identity (hex : string) :
  colourString hex -> shiftHexColor hex 0 = hex.
Proof.
  intros (body & -> & Hlen & Hlower).
  destruct body as [|c1 [|c2 [|c3 [|c4 [|c5 [|c6 [|]]]]]]]; try discriminate.
  cbn [lowerHex] in Hlower. rewrite !andb_true_iff in Hlower.
  destruct Hlower as (H1 & H2 & H3 & H4 & H5 & H6 & _).
  apply bool_decide_eq_true_1, lower_hex_char in H1, H2, H3, H4, H5, H6.
  destruct H1 as (d1 & Hd1 & Hr1 & Hc1), H2 as (d2 & Hd2 & Hr2 & Hc2),
           H3 as (d3 & Hd3 & Hr3 & Hc3), H4 as (d4 & Hd4 & Hr4 & Hc4),
           H5 as (d5 & Hd5 & Hr5 & Hc5), H6 as (d6 & Hd6 & Hr6 & Hc6).
  rewrite (shiftHexColor_channelsOf _ 0 (16 * d1 + d2) (16 * d3 + d4) (16 * d5 + d6)).
  - rewrite !saturate_byte_id by lia. unfold recompose.
    rewrite !fixedDigits_hexByte by lia.
    rewrite Hc1, Hc2, Hc3, Hc4, Hc5, Hc6. reflexivity.
  - unfold channelsOf. rewrite replace_hash_prefix.
    unfold channels, hexByte. rewrite Hr1, Hr2, Hr3, Hr4, Hr5, Hr6. reflexivity.
Qed.

Lemma shiftHexColor_zero_identity_witness : shiftHexColor "#4b5563" 0 = "#4b5563".
Proof.
  apply (shiftHexColor_zero_identity "#4b5563").
  exists "4b5563". repeat split; reflexivity.
Defined.

(** An amount of 255 or more gives white and one of -255 or less gives
    black, whatever the colour. *)
Theorem shiftHexColor_saturates (hex : string) (amount : Z) :
  is_Some (channelsOf hex) ->
  (255 <= amount -> shiftHexColor hex amount = "#ffffff")
  /\ (amount <= -255 -> shiftHexColor hex amount = "#000000").
Proof.
  intros [[[r g] b] H].
  destruct (channels_bytes _ _ _ _ H) as (Hr & Hg & Hb).
  rewrite (shiftHexColor_channelsOf _ _ _ _ _ H). split; intros Ha.
  - replace (saturate (r + amount)) with 255
      by (unfold saturate; repeat case_match; lia).
    replace (saturate (g + amount)) with 255
      by (unfold saturate; repeat case_match; lia).
    replace (saturate (b + amount)) with 255
      by (unfold saturate; repeat case_match; lia).
    reflexivity.
  - replace (saturate (r + amount)) with 0
      by (unfold saturate; repeat case_match; lia).
    replace (saturate (g + amount)) with 0
      by (unfold saturate; repeat case_match; lia).
    replace (saturate (b + amount)) with 0
      by (unfold saturate; repeat case_match; lia).
    reflexivity.
Qed.

Lemma shiftHexColor_saturates_witness :
  shiftHexColor "1E3A8A" 255 = "#ffffff" /\ shiftHexColor "1E3A8A" (-300) = "#000000".
Proof.
  destruct (shiftHexColor_saturates "1E3A8A" 255 ltac:(by eexists)) as [Hwhite _].
  destruct (shiftHexColor_saturates "1E3A8A" (-300) ltac:(by eexists)) as [_ Hblack].
  split; [apply Hwhite | apply Hblack]; lia.
Defined.

Lemma saturate_mono (v w : Z) : v <= w -> saturate v <= saturate w.
Proof. intros Hvw. unfold saturate. repeat case_match; lia. Qed.

Lemma shifts_noBrighter (hex : string) (a a' : Z) :
  is_Some (channelsOf hex) -> a <= a' ->
  noBrighter (shiftHexColor hex a) (shiftHexColor hex a').
Proof.
  intros [[[r g] b] H] Hle. unfold noBrighter.
  do 6 eexists. split; [|split].
  - rewrite (shiftHexColor_channelsOf _ _ _ _ _ H).
    apply channelsOf_recompose; apply saturate_below.
  - rewrite (shiftHexColor_channelsOf _ _ _ _ _ H).
    apply channelsOf_recompose; apply saturate_below.
  - repeat split; apply saturate_mono; lia.
Qed.

Lemma shift_up_noBrighter (hex : string) (a : Z) :
  is_Some (channelsOf hex) -> 0 <= a -> noBrighter hex (shiftHexColor hex a).
Proof.
  intros [[[r g] b] H] Ha. unfold noBrighter.
  destruct (channels_bytes _ _ _ _ H) as (Hr & Hg & Hb).
  exists r, g, b. do 3 eexists. split; [exact H|]. split.
  - rewrite (shiftHexColor_channelsOf _ _ _ _ _ H).
    apply channelsOf_recompose; apply saturate_below.
  - unfold saturate. repeat case_match; lia.
Qed.

(** A larger amount never gives a darker colour, and an amount that is not
    negative never darkens the input: every component of the one is at most
    that of the other. *)
Theorem shiftHexColor_monotone (hex : string) (a a' : Z) :
  is_Some (channelsOf hex) ->
  a <= a' ->
  noBrighter (shiftHexColor hex a) (shiftHexColor hex a')
  /\ (0 <= a -> noBrighter hex (shiftHexColor hex a)).
Proof.
  intros Hhex Hle. split.
  - by apply shifts_noBrighter.
  - intros Ha. by apply shift_up_noBrighter.
Qed.

Lemma shiftHexColor_monotone_witness :
  noBrighter (shiftHexColor "#15803d" 14) (shiftHexColor "#15803d" 26).
Proof.
  refine (proj1 (shiftHexColor_monotone "#15803d" 14 26 _ _)); [by eexists | lia].
Defined.

(** ** The status normalizer as a whole *)

Ltac solve_canonical :=
  unfold canonical, STATUS_ORDER; rewrite !elem_of_cons; auto 10.

Lemma canonical_meta (s : string) : canonical s -> is_Some (STATUS_META !! s).
Proof.
  intros Hs. pose proof (meta_hasOwn s) as Hown.
  rewrite (bool_decide_eq_true_2 _ Hs) in Hown.
  by apply bool_decide_eq_true_1 in Hown.
Qed.

Lemma normalizeStatus_drop_abbr (input stateAbbr : option string) :
  noOverride stateAbbr -> normalizeStatus input stateAbbr = normalizeStatus input None.
Proof.
  intros Hno. by rewrite (normalizeStatus_noOverride _ _ Hno),
                       (normalizeStatus_noOverride input None I).
Qed.

Lemma normalizeStatus_overridden (input : option string) (a : string) :
  a ∈ ["FL"; "HI"; "AZ"] -> normalizeStatus input (Some a) = val "pending".
Proof.
  intros Hin. unfold normalizeStatus. cbn [toKey].
  rewrite (get_own STATUS_OVERRIDES_BY_STATE a "pending")
    by (rewrite overrides_lookup; by rewrite bool_decide_eq_true_2).
  rewrite !elem_of_cons, elem_of_nil in Hin.
  destruct Hin as [->|[->|[->|[]]]]; reflexivity.
Qed.

Lemma normalizeStatus_inherited_abbr (input : option string) (k : string) :
  inherited k = true -> normalizeStatus input (Some k) = builtin k.
Proof.
  intros Hk. destruct (inherited_not_own k Hk) as (Hov & _ & _ & Htr).
  unfold normalizeStatus. cbn [toKey]. unfold get. rewrite Hov, Hk.
  change (truthy (Some k)) with (truthy k). by rewrite Htr.
Qed.

(** Without an abbreviation: a canonical status, or the built-in a raw
    status names. *)
Lemma normalizeStatus_raw_cases (input : option string) :
  (exists s, normalizeStatus input None = val s /\ canonical s)
  \/ (exists k, input = Some k /\ inherited k = true
                /\ normalizeStatus input None = builtin k).
Proof.
  rewrite (normalizeStatus_noOverride input None I).
  destruct input as [s|]; [|left; eexists; split; [reflexivity | solve_canonical]].
  destruct (truthy (Some s)) eqn:Htr;
    [|left; eexists; split; [reflexivity | solve_canonical]].
  cbn [negb toKey ofOption]. rewrite meta_hasOwn.
  destruct (decide (canonical s)) as [Hcan|Hcan].
  { rewrite (bool_decide_eq_true_2 _ Hcan). left. eauto. }
  rewrite (bool_decide_eq_false_2 _ Hcan).
  destruct (decide (s ∈ ["friendly"; "restrictive"; "none"; "unclear"])) as [Hleg|Hleg].
  { rewrite !elem_of_cons, elem_of_nil in Hleg. left.
    destruct Hleg as [->|[->|[->|[->|[]]]]];
      eexists; (split; [reflexivity | solve_canonical]). }
  unfold get. rewrite (legacy_lookup s Hleg).
  destruct (inherited s) eqn:Hk.
  - right. exists s. auto.
  - left. eexists. split; [reflexivity | solve_canonical].
Qed.

Lemma normalizeStatus_cases (input stateAbbr : option string) :
  (exists s, normalizeStatus input stateAbbr = val s /\ canonical s)
  \/ (exists k, (input = Some k \/ stateAbbr = Some k) /\ inherited k = true
                /\ normalizeStatus input stateAbbr = builtin k).
Proof.
  assert (Hraw : noOverride stateAbbr ->
    (exists s, normalizeStatus input stateAbbr = val s /\ canonical s)
    \/ (exists k, (input = Some k \/ stateAbbr = Some k) /\ inherited k = true
                  /\ normalizeStatus input stateAbbr = builtin k)).
  { intros Hno. rewrite (normalizeStatus_drop_abbr _ _ Hno).
    destruct (normalizeStatus_raw_cases input) as [Hval|(k & -> & Hk & Hres)];
      [by left | right; eauto]. }
  destruct stateAbbr as [a|]; [|by apply Hraw].
  destruct (decide (a ∈ ["FL"; "HI"; "AZ"])) as [Hin|Hin].
  { left. exists "pending".
    split; [by apply normalizeStatus_overridden | solve_canonical]. }
  destruct (inherited a) eqn:Hk.
  - right. exists a. split; [by right|]. split; [done|].
    by apply normalizeStatus_inherited_abbr.
  - by apply Hraw.
Qed.

Lemma baseFill_builtin (k : string) :
  inherited k = true -> baseFill (builtin k) = Throw "TypeError".
Proof.
  intros Hk. apply bool_decide_eq_true_1 in Hk. unfold ObjectPrototype in Hk.
  rewrite !elem_of_cons, elem_of_nil in Hk.
  repeat destruct Hk as [Hk|Hk]; try done; subst k; vm_compute; reflexivity.
Qed.

(** [normalizeStatus] returns a canonical status, one that has its entry in
    [STATUS_META] and so a base fill, or the built-in that the raw status or
    the abbreviation names, for which the read of the fill throws; it never
    returns [undefined] or a string that is not canonical. *)
Theorem normalizeStatus_canonical_or_inherited (input stateAbbr : option string) :
  (exists s meta,
     normalizeStatus input stateAbbr = val s /\ canonical s
     /\ STATUS_META !! s = Some meta
     /\ baseFill (normalizeStatus input stateAbbr) = Normal (color meta))
  \/ (exists k,
        (input = Some k \/ stateAbbr = Some k) /\ inherited k = true
        /\ normalizeStatus input stateAbbr = builtin k
        /\ baseFill (normalizeStatus input stateAbbr) = Throw "TypeError").
Proof.
  destruct (normalizeStatus_cases input stateAbbr)
    as [(s & Hres & Hcan)|(k & Hwho & Hk & Hres)].
  - left. destruct (canonical_meta s Hcan) as [meta Hmeta].
    exists s, meta. repeat split; try done.
    rewrite Hres. unfold baseFill. cbn [keyOf toKey].
    by rewrite (get_own _ _ _ Hmeta).
  - right. exists k. repeat split; try done.
    rewrite Hres. by apply baseFill_builtin.
Qed.

(** A status [normalizeStatus] has returned is returned again when it is
    passed back with the same abbreviation. *)
Theorem normalizeStatus_idempotent (input stateAbbr : option string) (s : string) :
  normalizeStatus input stateAbbr = val s ->
  normalizeStatus (Some s) stateAbbr = val s.
Proof.
  intros Hres.
  assert (Hraw : forall abbr, noOverride abbr -> canonical s ->
                   normalizeStatus (Some s) abbr = val s).
  { intros abbr Hno Hcan. rewrite (normalizeStatus_noOverride _ _ Hno).
    cbn [toKey ofOption]. rewrite meta_hasOwn, (bool_decide_eq_true_2 _ Hcan).
    unfold canonical, STATUS_ORDER in Hcan.
    rewrite !elem_of_cons, elem_of_nil in Hcan.
    destruct Hcan as [->|[->|[->|[->|[]]]]]; reflexivity. }
  assert (Hcan : canonical s).
  { destruct (normalizeStatus_cases input stateAbbr)
      as [(s' & Hres' & Hcan)|(k & _ & _ & Hres')]; rewrite Hres in Hres'.
    - by injection Hres' as ->.
    - discriminate. }
  destruct stateAbbr as [a|]; [|by apply Hraw].
  destruct (decide (a ∈ ["FL"; "HI"; "AZ"])) as [Hin|Hin].
  { rewrite (normalizeStatus_overridden input a Hin) in Hres.
    injection Hres as <-. by apply normalizeStatus_overridden. }
  destruct (inherited a) eqn:Hk.
  - rewrite (normalizeStatus_inherited_abbr input a Hk) in Hres. discriminate.
  - by apply Hraw.
Qed.

Lemma normalizeStatus_idempotent_witness :
  normalizeStatus (Some "pending") (Some "NY") = val "pending".
Proof.
  apply (normalizeStatus_idempotent (Some "unclear") (Some "NY") "pending").
  reflexivity.
Defined.

(** *** The earlier versions *)

Lemma tracker_meta_hasOwn (s : string) :
  hasOwn Tracker.STATUS_META s = hasOwn STATUS_META s.
Proof.
  rewrite meta_hasOwn. unfold hasOwn, canonical, STATUS_ORDER.
  destruct (decide (s ∈ ["clear_friendly"; "clear_restrictive"; "pending";
                         "federal_default"])) as [Hin|Hin].
  - rewrite (bool_decide_eq_true_2 _ Hin).
    rewrite !elem_of_cons, elem_of_nil in Hin.
    destruct Hin as [->|[->|[->|[->|[]]]]]; reflexivity.
  - rewrite (bool_decide_eq_false_2 _ Hin). apply bool_decide_eq_false_2.
    rewrite !elem_of_cons in Hin. unfold Tracker.STATUS_META.
    intros [m Hm]. revert Hm. literal_lookup;
      try (exfalso; apply Hin; auto; fail); discriminate.
Qed.

(** The normalizer of the tracker version is the normalizer of the page
    without an abbreviation, and the two agree wherever no override
    applies; for FL, HI and AZ the page answers "pending" instead. *)
Theorem normalizeStatus_versions_agree (input stateAbbr : option string) :
  Tracker.normalizeStatus input = normalizeStatus input None
  /\ (noOverride stateAbbr ->
      normalizeStatus input stateAbbr = Tracker.normalizeStatus input)
  /\ (forall a, a ∈ ["FL"; "HI"; "AZ"] ->
        normalizeStatus input (Some a) = val "pending").
Proof.
  assert (Hsame : Tracker.normalizeStatus input = normalizeStatus input None).
  { rewrite (normalizeStatus_noOverride input None I).
    unfold Tracker.normalizeStatus. by rewrite tracker_meta_hasOwn. }
  split; [exact Hsame|]. split.
  - intros Hno. by rewrite Hsame, (normalizeStatus_drop_abbr _ _ Hno).
  - intros a. apply normalizeStatus_overridden.
Qed.

(** [statusKey] of the first version always returns a key [STATUS_META]
    has as its own, also for a raw status that names an inherited property,
    which it answers with "none"; and it returns its own results
    unchanged. *)
Theorem statusKey_own_key (input : option string) :
  is_Some (Legacy.STATUS_META !! Legacy.statusKey input)
  /\ Legacy.statusKey (Some (Legacy.statusKey input)) = Legacy.statusKey input
  /\ (forall k, input = Some k -> inherited k = true ->
        Legacy.statusKey input = "none").
Proof.
  assert (Hnone : is_Some (Legacy.STATUS_META !! "none")) by (by eexists).
  assert (Hown : is_Some (Legacy.STATUS_META !! Legacy.statusKey input)).
  { unfold Legacy.statusKey. destruct (negb (truthy input)); [exact Hnone|].
    destruct (hasOwn Legacy.STATUS_META (toKey input)) eqn:Hown; [|exact Hnone].
    by apply bool_decide_eq_true_1 in Hown. }
  split; [exact Hown|]. split.
  - set (key := Legacy.statusKey input) in *. unfold Legacy.statusKey.
    cbn [toKey]. unfold hasOwn. rewrite (bool_decide_eq_true_2 _ Hown).
    change (truthy (Some key)) with (truthy key).
    destruct (truthy key) eqn:Htr; [reflexivity|].
    destruct Hown as [meta Hmeta]. unfold truthy, string_truthy in Htr.
    apply negb_false_iff, String.eqb_eq in Htr. rewrite Htr in Hmeta.
    discriminate.
  - intros k -> Hk. apply bool_decide_eq_true_1 in Hk. unfold ObjectPrototype in Hk.
    rewrite !elem_of_cons, elem_of_nil in Hk.
    repeat destruct Hk as [Hk|Hk]; try done; subst k; reflexivity.
Qed.

(** ** The style of a tracker status *)

Lemma toLowerCase_app (s t : string) :
  toLowerCase (s +:+ t) = toLowerCase s +:+ toLowerCase t.
Proof.
  induction s as [|c s IH]; [reflexivity|].
  rewrite append_cons. cbn [toLowerCase]. by rewrite IH, append_cons.
Qed.

Lemma toLowerChar_idempotent (c : ascii) : toLowerChar (toLowerChar c) = toLowerChar c.
Proof. destruct c as [[] [] [] [] [] [] [] []]; vm_compute; reflexivity. Qed.

Lemma toLowerCase_idempotent (s : string) : toLowerCase (toLowerCase s) = toLowerCase s.
Proof.
  induction s as [|c s IH]; [reflexivity|].
  cbn [toLowerCase]. by rewrite toLowerChar_idempotent, IH.
Qed.

Lemma prefix_app (w post : string) : String.prefix w (w +:+ post) = true.
Proof.
  induction w as [|c w IH]; [apply prefix_nil|].
  rewrite append_cons. cbn [String.prefix].
  destruct (ascii_dec c c); [exact IH | congruence].
Qed.

Lemma includes_app (pre w post : string) : includes (pre +:+ w +:+ post) w = true.
Proof.
  induction pre as [|c pre IH].
  - rewrite append_nil_l. destruct (w +:+ post) eqn:Hw; cbn [includes];
      rewrite <- Hw, prefix_app; reflexivity.
  - rewrite append_cons. cbn [includes]. rewrite IH. apply orb_true_r.
Qed.

(** [String(status || "")] is the status, or the empty string without one. *)
Lemma tracker_text (status : option string) :
  toKey (or_else status (Some "")) = default "" status.
Proof.
  destruct status as [s|]; [|reflexivity]. unfold or_else.
  change (truthy (Some s)) with (negb (String.eqb s "")).
  destruct (String.eqb_spec s "") as [->|_]; reflexivity.
Qed.

(** The style of a status depends on its lower-case form only: statuses
    that differ in letter case get the same style, and a missing status is
    styled as the empty one, which is neutral. *)
Theorem trackerStatusStyle_ignores_case (s t : string) :
  toLowerCase s = toLowerCase t ->
  Tracker.trackerStatusStyle (Some s) = Tracker.trackerStatusStyle (Some t)
  /\ Tracker.trackerStatusStyle (Some (toLowerCase s)) = Tracker.trackerStatusStyle (Some s)
  /\ Tracker.trackerStatusStyle None = Tracker.trackerStatusStyle (Some "")
  /\ Tracker.trackerStatusStyle None = styleNeutral.
Proof.
  intros Hst. unfold Tracker.trackerStatusStyle. rewrite !tracker_text.
  change (default "" (Some s)) with s. change (default "" (Some t)) with t.
  change (default "" (Some (toLowerCase s))) with (toLowerCase s).
  rewrite toLowerCase_idempotent, Hst. by repeat split.
Qed.

Lemma trackerStatusStyle_ignores_case_witness :
  Tracker.trackerStatusStyle (Some "PILOT Program") =
    Tracker.trackerStatusStyle (Some "Pilot program").
Proof.
  exact (proj1 (trackerStatusStyle_ignores_case "PILOT Program" "Pilot program" eq_refl)).
Defined.

(** "live" or "launch" anywhere in the status, in any letter case and also
    inside a longer word, gives the live style whatever else the status
    says; one of the other keywords gives the style of a programme in
    preparation unless the status is styled live. *)
Theorem trackerStatusStyle_keywords (pre w post : string) :
  (toLowerCase w = "live" \/ toLowerCase w = "launch" ->
     Tracker.trackerStatusStyle (Some (pre +:+ w +:+ post)) = styleLive)
  /\ (toLowerCase w ∈ ["pilot"; "pending"; "introduc"; "proposal"; "committee"] ->
        Tracker.trackerStatusStyle (Some (pre +:+ w +:+ post)) = styleLive
        \/ Tracker.trackerStatusStyle (Some (pre +:+ w +:+ post)) = styleMoving).
Proof.
  unfold Tracker.trackerStatusStyle. rewrite tracker_text.
  change (default "" (Some ?x)) with x. rewrite !toLowerCase_app.
  pose proof (includes_app (toLowerCase pre) (toLowerCase w) (toLowerCase post)) as Hw.
  set (text := toLowerCase pre +:+ toLowerCase w +:+ toLowerCase post) in *.
  split.
  - intros [Hkey|Hkey]; rewrite Hkey in Hw; rewrite Hw;
      [by rewrite orb_true_r | reflexivity].
  - intros Hkey. rewrite !elem_of_cons, elem_of_nil in Hkey.
    destruct (includes text "launch" || includes text "live"); [by left|right].
    destruct Hkey as [Hkey|[Hkey|[Hkey|[Hkey|[Hkey|[]]]]]];
      rewrite Hkey in Hw; rewrite Hw;
      repeat match goal with
             | |- context [includes text ?k] => destruct (includes text k)
             end; reflexivity.
Qed.

Lemma trackerStatusStyle_keywords_witness :
  Tracker.trackerStatusStyle (Some "Delivered to committee") = styleLive.
Proof.
  exact (proj1 (trackerStatusStyle_keywords "De" "live" "red to committee")
               (or_introl eq_refl)).
Defined.

(** ** The latest date, the status chip and the fills of a region *)

Lemma latestDataDate_unique (statesData : gmap string StateRecord) (d : string) :
  updateDate statesData d ->
  (forall d', updateDate statesData d' -> String.le d' d) ->
  latestDataDate statesData = d.
Proof.
  intros Hd Hmax.
  destruct (latestDataDate_cases statesData) as [Hgreatest [Hdate|[_ Hnone]]].
  - apply (anti_symm String.le); [by apply Hmax | by apply Hgreatest].
  - by destruct (Hnone d).
Qed.

Lemma latestDataDate_nonempty (statesData : gmap string StateRecord) :
  latestDataDate statesData <> "".
Proof.
  destruct (latestDataDate_cases statesData) as [_ [[Hne _]|[-> _]]]; done.
Qed.

(** A record whose date is not before any date of the dataset makes its
    date the latest one when it is put in, whether it is new or replaces a
    record. *)
Theorem latestDataDate_newer_record
    (statesData : gmap string StateRecord) (k : string) (rec : StateRecord)
    (d : string) :
  lastUpdated rec = Some d -> d <> "" ->
  (forall d', updateDate statesData d' -> String.le d' d) ->
  latestDataDate (<[k := rec]> statesData) = d.
Proof.
  intros Hrec Hne Hmax. apply latestDataDate_unique.
  - split; [exact Hne|]. exists k, rec. by rewrite lookup_insert_eq.
  - intros d' (Hne' & k' & rec' & Hk' & Hd').
    destruct (decide (k = k')) as [<-|Hkk'].
    + rewrite lookup_insert_eq in Hk'. injection Hk' as <-.
      rewrite Hrec in Hd'. by injection Hd' as ->.
    + rewrite lookup_insert_ne in Hk' by done.
      apply Hmax. split; [exact Hne'|]. eauto.
Qed.

Lemma latestDataDate_newer_record_witness :
  latestDataDate
    (<["NY" := {| name := val "New York"; status := Some "clear_restrictive";
                  summary := ""; keyLaws := []; recentDevelopments := "";
                  sources := []; lastUpdated := Some "2026-03-01" |}]> ∅)
  = "2026-03-01".
Proof.
  apply latestDataDate_newer_record; [reflexivity | discriminate |].
  intros d' (_ & k & rec & Hk & _). by rewrite lookup_empty in Hk.
Defined.

(** The date of the footer is never empty, so [formatDate] never answers
    "N/A" for it: the footer shows the long form of the latest date, or the
    date as it is stored when the host cannot read it. *)
Theorem formatDate_latestDataDate (host : Host) (statesData : gmap string StateRecord) :
  latestDataDate statesData <> ""
  /\ formatDate host (Some (latestDataDate statesData)) =
       match dateTime host (latestDataDate statesData +:+ "T00:00:00") with
       | Some time => Normal (formatLong host time)
       | None => Normal (latestDataDate statesData)
       end.
Proof.
  pose proof (latestDataDate_nonempty statesData) as Hne.
  split; [exact Hne|]. unfold formatDate.
  change (truthy (Some ?s)) with (truthy s).
  rewrite (truthy_nonempty _ Hne). cbn [negb toKey].
  by destruct (dateTime host _).
Qed.

(** The status of the chip: "pending" for FL, HI and AZ whatever the
    dataset holds, "federal_default" for another abbreviation the dataset
    does not have, the normalized status of the record otherwise. *)
Theorem selectedStatus_cases
    (statesData : gmap string StateRecord) (ALL_STATES : gmap string string)
    (selectedAbbr : string) :
  (selectedAbbr ∈ ["FL"; "HI"; "AZ"] ->
     selectedStatus statesData ALL_STATES selectedAbbr = val "pending")
  /\ (statesData !! selectedAbbr = None -> inherited selectedAbbr = false ->
      selectedAbbr ∉ ["FL"; "HI"; "AZ"] ->
      selectedStatus statesData ALL_STATES selectedAbbr = val "federal_default")
  /\ (forall rec, statesData !! selectedAbbr = Some rec ->
        selectedStatus statesData ALL_STATES selectedAbbr =
          normalizeStatus (status rec) (Some selectedAbbr)).
Proof.
  unfold selectedStatus. split; [|split].
  - intros Hin. by apply normalizeStatus_overridden.
  - intros Hdata Hplain Hin. unfold selectedState.
    rewrite (get_plain statesData _ Hdata Hplain). cbn [truthy value_truthy statusOf status].
    by rewrite (normalizeStatus_drop_abbr _ (Some selectedAbbr)).
  - intros rec Hdata. unfold selectedState.
    by rewrite (get_own statesData _ _ Hdata).
Qed.

Lemma selectedStatus_cases_witness :
  selectedStatus ∅ ∅ "FL" = val "pending"
  /\ selectedStatus ∅ ∅ "WY" = val "federal_default".
Proof.
  destruct (selectedStatus_cases ∅ ∅ "FL") as (Hoverride & _ & _).
  destruct (selectedStatus_cases ∅ ∅ "WY") as (_ & Habsent & _).
  split.
  - apply Hoverride. rewrite !elem_of_cons. auto.
  - apply Habsent; [apply lookup_empty | reflexivity |].
    rewrite !elem_of_cons, elem_of_nil. intros [?|[?|[?|[]]]]; discriminate.
Defined.

Lemma meta_colour (s : string) (meta : StatusMeta) :
  canonical s -> STATUS_META !! s = Some meta ->
  colourString (color meta) /\ is_Some (channelsOf (color meta)).
Proof.
  unfold canonical, STATUS_ORDER. rewrite !elem_of_cons, elem_of_nil.
  intros [->|[->|[->|[->|[]]]]] Hmeta; vm_compute in Hmeta;
    injection Hmeta as <-;
    (split; [eexists; repeat split; reflexivity | by eexists]).
Qed.

Lemma shift_colourString (hex : string) (amount : Z) :
  is_Some (channelsOf hex) -> colourString (shiftHexColor hex amount).
Proof.
  intros [[[r g] b] H]. rewrite (shiftHexColor_channelsOf _ _ _ _ _ H).
  apply recompose_colourString.
Qed.

Lemma currentStatus_plain (statesData : gmap string StateRecord) (abbr : value string) :
  plainAbbr abbr -> plain (statusOf (currentState statesData abbr)) ->
  exists s, currentStatus statesData abbr = val s /\ canonical s.
Proof.
  intros Habbr Hstatus. unfold currentStatus.
  destruct (normalizeStatus_cases (statusOf (currentState statesData abbr)) (keyOf abbr))
    as [Hval|(k & [Hk|Hk] & Hinh & _)]; [exact Hval | |].
  - rewrite Hk in Hstatus. cbn in Hstatus. congruence.
  - destruct abbr as [|a|b]; [discriminate | | done].
    injection Hk as ->. cbn in Habbr. congruence.
Qed.

(** The fills of a region whose abbreviation and stored status name no
    inherited property are computed without an exception; each is "#" and
    six digits of [0-9a-f], the hover fill is no darker than the default
    fill and the pressed fill no darker than the hover fill, selected or
    not; the default fill of a region that is not selected is the colour of
    its status. *)
Theorem regionFills_ordered
    (statesData : gmap string StateRecord) (abbr : value string)
    (selectedAbbr : string) :
  plainAbbr abbr ->
  plain (statusOf (currentState statesData abbr)) ->
  exists s meta fills,
    currentStatus statesData abbr = val s
    /\ STATUS_META !! s = Some meta
    /\ regionFills statesData abbr selectedAbbr = Normal fills
    /\ colourString (fill_default fills)
    /\ colourString (fill_hover fills)
    /\ colourString (fill_pressed fills)
    /\ noBrighter (fill_default fills) (fill_hover fills)
    /\ noBrighter (fill_hover fills) (fill_pressed fills)
    /\ (isSelected abbr selectedAbbr = false -> fill_default fills = color meta).
Proof.
  intros Habbr Hstatus.
  destruct (currentStatus_plain statesData abbr Habbr Hstatus) as (s & Hs & Hcan).
  destruct (canonical_meta s Hcan) as [meta Hmeta].
  destruct (meta_colour s meta Hcan Hmeta) as [Hcolour Hchannels].
  exists s, meta. eexists. split; [exact Hs|]. split; [exact Hmeta|].
  unfold regionFills, baseFill. rewrite Hs. cbn [keyOf toKey].
  rewrite (get_own _ _ _ Hmeta). cbn [bind].
  split; [reflexivity|]. cbn [fill_default fill_hover fill_pressed].
  destruct (isSelected abbr selectedAbbr).
  - repeat split; try (by apply shift_colourString);
      try (apply shifts_noBrighter; [done | lia]). discriminate.
  - repeat split; try (by apply shift_colourString); try done.
    + apply shift_up_noBrighter; [done | lia].
    + apply shifts_noBrighter; [done | lia].
Qed.

Lemma regionFills_ordered_witness :
  exists fills,
    regionFills ∅ (val "FL") "NY" = Normal fills
    /\ fill_default fills = "#a16207"
    /\ noBrighter (fill_default fills) (fill_hover fills)
    /\ noBrighter (fill_hover fills) (fill_pressed fills).
Proof.
  destruct (regionFills_ordered ∅ (val "FL") "NY" eq_refl ltac:(vm_compute; exact I))
    as (s & meta & fills & Hs & Hmeta & Hfills & _ & _ & _ & Hhover & Hpressed & Hbase).
  exists fills. repeat split; try assumption.
  rewrite (Hbase eq_refl).
  vm_compute in Hs. injection Hs as <-.
  vm_compute in Hmeta. by injection Hmeta as <-.
Defined.

(** ** The code of a region *)

(** An identifier below 100 gives the same two-digit code whether the
    feature carries it as a number, as its decimal numeral or as the
    two-digit numeral itself. *)
Theorem fips_two_digits (n : Z) (name1 name2 name3 : option string) :
  0 <= n < 100 ->
  fips {| geo_id := IdNumber n; geo_name := name1 |} = fixedDigits 10 2 n
  /\ fips {| geo_id := IdString (toString n 10); geo_name := name2 |} = fixedDigits 10 2 n
  /\ fips {| geo_id := IdString (fixedDigits 10 2 n); geo_name := name3 |} = fixedDigits 10 2 n.
Proof.
  intros Hn. unfold fips, geo_id, String_.
  change 2 with (Z.of_nat 2).
  rewrite (padStart_toString 10 2 n) by (change (10 ^ Z.of_nat 2) with 100; lia).
  split; [reflexivity|]. split; reflexivity.
Qed.

Lemma fips_two_digits_witness :
  fips {| geo_id := IdNumber 6; geo_name := Some "California" |} = "06"
  /\ fips {| geo_id := IdString "6"; geo_name := None |} = "06"
  /\ fips {| geo_id := IdString "06"; geo_name := None |} = "06".
Proof.
  exact (fips_two_digits 6 (Some "California") None None ltac:(lia)).
Defined.

(** ** Selecting a region *)

(** A click, Enter or the space bar on a region with an abbreviation makes
    that abbreviation the selection, any other key and any event on a region
    without abbreviation leave the selection as it is, and a region that has
    just been selected is drawn with the colour of its status shifted by
    26. *)
Theorem region_activation
    (statesData : gmap string StateRecord) (a key : string)
    (selectedAbbr : value string) :
  a <> "" -> inherited a = false ->
  plain (statusOf (currentState statesData (val a))) ->
  onClick (val a) selectedAbbr = val a
  /\ onKeyDown (val a) key selectedAbbr =
       (if bool_decide (key = "Enter" \/ key = " ") then val a else selectedAbbr)
  /\ onClick undefined selectedAbbr = selectedAbbr
  /\ onKeyDown undefined key selectedAbbr = selectedAbbr
  /\ (exists s meta fills,
        currentStatus statesData (val a) = val s
        /\ STATUS_META !! s = Some meta
        /\ regionFills statesData (val a) a = Normal fills
        /\ fill_default fills = shiftHexColor (color meta) 26).
Proof.
  intros Hne Hplain Hstatus.
  assert (Htr : truthy (val a) = true) by (by apply truthy_string).
  split; [unfold onClick; by rewrite Htr|]. split.
  { unfold onKeyDown. rewrite Htr. cbn [negb].
    destruct (String.eqb_spec key "Enter") as [->|HE];
      [by rewrite bool_decide_eq_true_2 by auto|].
    destruct (String.eqb_spec key " ") as [->|HS];
      [by rewrite bool_decide_eq_true_2 by auto|].
    rewrite bool_decide_eq_false_2; [reflexivity | intros [?|?]; done]. }
  split; [reflexivity|]. split; [reflexivity|].
  destruct (currentStatus_plain statesData (val a) Hplain Hstatus) as (s & Hs & Hcan).
  destruct (canonical_meta s Hcan) as [meta Hmeta].
  exists s, meta. eexists. split; [exact Hs|]. split; [exact Hmeta|].
  unfold regionFills, baseFill. rewrite Hs. cbn [keyOf toKey].
  rewrite (get_own _ _ _ Hmeta). cbn [bind isSelected].
  rewrite String.eqb_refl. split; reflexivity.
Qed.

Lemma region_activation_witness :
  onClick (val "CA") (val "NY") = val "CA"
  /\ onKeyDown (val "CA") "Tab" (val "NY") = val "NY"
  /\ exists fills,
       regionFills ∅ (val "CA") "CA" = Normal fills
       /\ fill_default fills = "#656f7d".
Proof.
  destruct (region_activation ∅ "CA" "Tab" (val "NY") ltac:(discriminate) eq_refl
              ltac:(vm_compute; exact I))
    as (Hclick & Hkey & _ & _ & s & meta & fills & Hs & Hmeta & Hfills & Hfill).
  split; [exact Hclick|]. split; [exact Hkey|].
  exists fills. split; [exact Hfills|]. rewrite Hfill.
  vm_compute in Hs. injection Hs as <-.
  vm_compute in Hmeta. by injection Hmeta as <-.
Defined.

(** ** The form of the result of the colour deriver *)


Lemma lowerHex_allDigits (s : string) : lowerHex s = true -> allDigits 16 s = true.
Proof.
  induction s as [|c s IH]; [reflexivity|]. cbn [lowerHex allDigits].
  intros [Hc Hs]%andb_true_iff. rewrite (IH Hs), andb_true_r.
  apply bool_decide_eq_true_1, lower_hex_char in Hc as (d & _ & Hd & _).
  apply bool_decide_eq_true_2. eauto.
Qed.

(** A colour string in the form [shiftHexColor] writes is the colour string
    of its own components. *)
Lemma colourString_channels (hex : string) :
  colourString hex ->
  exists r g b, channelsOf hex = Some (r, g, b) /\ recompose r g b = hex.
Proof.
  intros (body & -> & Hlen & Hlower).
  destruct body as [|c1 [|c2 [|c3 [|c4 [|c5 [|c6 [|]]]]]]]; try discriminate.
  cbn [lowerHex] in Hlower. rewrite !andb_true_iff in Hlower.
  destruct Hlower as (H1 & H2 & H3 & H4 & H5 & H6 & _).
  apply bool_decide_eq_true_1, lower_hex_char in H1, H2, H3, H4, H5, H6.
  destruct H1 as (d1 & Hd1 & Hr1 & Hc1), H2 as (d2 & Hd2 & Hr2 & Hc2),
           H3 as (d3 & Hd3 & Hr3 & Hc3), H4 as (d4 & Hd4 & Hr4 & Hc4),
           H5 as (d5 & Hd5 & Hr5 & Hc5), H6 as (d6 & Hd6 & Hr6 & Hc6).
  exists (16 * d1 + d2), (16 * d3 + d4), (16 * d5 + d6). split.
  - unfold channelsOf. rewrite replace_hash_prefix.
    unfold channels, hexByte. rewrite Hr1, Hr2, Hr3, Hr4, Hr5, Hr6. reflexivity.
  - unfold recompose. rewrite !fixedDigits_hexByte by lia.
    rewrite Hc1, Hc2, Hc3, Hc4, Hc5, Hc6. reflexivity.
Qed.

(** On every input and amount [shiftHexColor] gives the input back when the
    text after the first "#" has not six characters or [parseInt] reads no
    number from it, and gives "#" and six digits of [0-9a-f] otherwise. The
    result is the input itself in those two cases and in one more only: the
    input is already "#" and six digits of [0-9a-f] and the amount leaves
    each of its components where it is. *)
Theorem shiftHexColor_unmodified_or_colour (hex : string) (amount : Z) :
  (((strlen (replace "#" "" hex) <> 6 \/ parseInt (replace "#" "" hex) 16 = None)
    /\ shiftHexColor hex amount = hex)
   \/ (strlen (replace "#" "" hex) = 6
       /\ is_Some (parseInt (replace "#" "" hex) 16)
       /\ colourString (shiftHexColor hex amount)))
  /\ (shiftHexColor hex amount = hex <->
      (strlen (replace "#" "" hex) <> 6 \/ parseInt (replace "#" "" hex) 16 = None)
      \/ (colourString hex
          /\ exists r g b,
               channelsOf hex = Some (r, g, b)
               /\ saturate (r + amount) = r
               /\ saturate (g + amount) = g
               /\ saturate (b + amount) = b)).
Proof.
  assert (Hfixed : colourString hex ->
            forall r g b, channelsOf hex = Some (r, g, b) ->
            (shiftHexColor hex amount = hex <->
             saturate (r + amount) = r /\ saturate (g + amount) = g
             /\ saturate (b + amount) = b)).
  { intros Hcolour r g b H.
    destruct (colourString_channels hex Hcolour) as (r' & g' & b' & H' & Hhex).
    rewrite H in H'. injection H' as <- <- <-.
    rewrite (shiftHexColor_channelsOf _ _ _ _ _ H). split.
    - intros Heq.
      assert (Hback : channelsOf (recompose (saturate (r + amount))
                        (saturate (g + amount)) (saturate (b + amount)))
                      = Some (r, g, b)) by (by rewrite Heq).
      rewrite channelsOf_recompose in Hback by apply saturate_below.
      by injection Hback as -> -> ->.
    - intros (-> & -> & ->). exact Hhex. }
  destruct (decide (strlen (replace "#" "" hex) = 6)) as [Hlen|Hlen];
    [|split; [left; split; [by left | by apply shiftHexColor_wrong_length]
             | split; [intros _; left; by left
                      | intros _; by apply shiftHexColor_wrong_length]]].
  destruct (parseInt (replace "#" "" hex) 16) as [num|] eqn:Hnum;
    [|split; [left; split; [by right | by apply shiftHexColor_not_a_number]
             | split; [intros _; left; by right
                      | intros _; by apply shiftHexColor_not_a_number]]].
  assert (Hcolour : colourString (shiftHexColor hex amount)).
  { rewrite (shiftHexColor_parsed hex amount num Hlen Hnum).
    apply recompose_colourString. }
  split; [right; split; [exact Hlen | split; [eauto | exact Hcolour]]|].
  split.
  - intros Heq. right. rewrite Heq in Hcolour. split; [exact Hcolour|].
    destruct (colourString_channels hex Hcolour) as (r & g & b & H & _).
    exists r, g, b. split; [exact H|]. by apply (Hfixed Hcolour r g b H).
  - intros [[Hbad|Hbad]|(Hhex & r & g & b & H & Hsame)]; [done | discriminate |].
    by apply (Hfixed Hhex r g b H).
Qed.



(** ** The selections the page can hold *)






